(** * The customers page ([src/pages/index.tsx]): a shallow embedding

    The page is one React component, [Home].  It keeps four pieces of
    component state (the dialog flag, the draft customer, the e-mail
    input and the e-mail error), reads the customer list through the SWR
    hook and adds a customer with a POST request.

    Layout of this development:
    - JavaScript strings and the regular expression of [validateEmail];
    - the data model ([Customer], [ApiError], the component state);
    - the handlers, written in a small monad for state, events and
      exceptions; an [await] splits a handler in the part that runs
      before the promise settles and the part that runs after it;
    - what [Home] renders;
    - the page as a transition system;
    - the properties. *)

From Stdlib Require Import List NArith Bool String Ascii Arith Lia.
From Stdlib Require Import DecimalString DecimalNat.
Import ListNotations.

Set Implicit Arguments.

(* ===================================================================== *)
(** ** JavaScript strings *)
(* ===================================================================== *)

(** A JavaScript string is a sequence of UTF-16 code units.  A code unit
    is a number below 65536; nothing below depends on the bound. *)
Definition char16 := N.
Definition jsstring := list char16.

Definition char16_of_ascii (a : ascii) : char16 := N_of_ascii a.

(** An ASCII literal of the source as a JavaScript string. *)
Definition js (s : string) : jsstring :=
  List.map char16_of_ascii (list_ascii_of_string s).

Definition char16_eq_dec : forall c d : char16, {c = d} + {c <> d} := N.eq_dec.

(** [!s] for a string [s]: the empty string is the only falsy string. *)
Definition falsy (s : jsstring) : bool :=
  match s with
  | [] => true
  | _ :: _ => false
  end.

(** [String(n)] for an array length [n]. *)
Definition string_of_length (n : nat) : jsstring :=
  js (NilEmpty.string_of_uint (Nat.to_uint n)).

(* ===================================================================== *)
(** ** Regular expressions *)
(* ===================================================================== *)

Module RegExp.

(** The members of a character class: a literal character or the
    escape [\s]. *)
Inductive ClassAtom : Type :=
| ClassChar (c : char16)
| ClassSpace.

(** The fragment of the pattern language that the page uses, closed
    under derivatives ([Void] and [Alt] appear in derivatives only). *)
Inductive regex : Type :=
| Void
| Eps
| Char (c : char16)
| NotIn (atoms : list ClassAtom)
| Seq (r1 r2 : regex)
| Alt (r1 r2 : regex)
| Star (r : regex).

(** [r+] *)
Definition Plus (r : regex) : regex := Seq r (Star r).

(** [\s]: WhiteSpace and LineTerminator of ECMAScript.
    TAB, LF, VT, FF, CR, SP, NBSP, U+1680, U+2000..U+200A, U+2028,
    U+2029, U+202F, U+205F, U+3000, U+FEFF. *)
Definition isSpace (c : char16) : bool :=
  ((9 <=? c) && (c <=? 13)
   || (c =? 32) || (c =? 160) || (c =? 5760)
   || (8192 <=? c) && (c <=? 8202)
   || (c =? 8232) || (c =? 8233) || (c =? 8239) || (c =? 8287)
   || (c =? 12288) || (c =? 65279))%N.

Definition atom_matches (a : ClassAtom) (c : char16) : bool :=
  match a with
  | ClassChar d => N.eqb c d
  | ClassSpace => isSpace c
  end.

(** [[^...]]: the character is in none of the atoms. *)
Definition notin (atoms : list ClassAtom) (c : char16) : bool :=
  negb (existsb (fun a => atom_matches a c) atoms).

Fixpoint nullable (r : regex) : bool :=
  match r with
  | Void => false
  | Eps => true
  | Char _ => false
  | NotIn _ => false
  | Seq r1 r2 => nullable r1 && nullable r2
  | Alt r1 r2 => nullable r1 || nullable r2
  | Star _ => true
  end.

Fixpoint deriv (c : char16) (r : regex) : regex :=
  match r with
  | Void => Void
  | Eps => Void
  | Char d => if N.eqb c d then Eps else Void
  | NotIn atoms => if notin atoms c then Eps else Void
  | Seq r1 r2 =>
      if nullable r1
      then Alt (Seq (deriv c r1) r2) (deriv c r2)
      else Seq (deriv c r1) r2
  | Alt r1 r2 => Alt (deriv c r1) (deriv c r2)
  | Star r1 => Seq (deriv c r1) (Star r1)
  end.

(** [/^r$/.test(s)] for a pattern without flags: [^] and [$] only
    match at the two ends of the input, so the whole of [s] has to
    match [r]. *)
Fixpoint test (r : regex) (s : jsstring) : bool :=
  match s with
  | [] => nullable r
  | c :: s' => test (deriv c r) s'
  end.

(** The strings a pattern matches. *)
Inductive Lang : regex -> jsstring -> Prop :=
| LEps : Lang Eps []
| LChar c : Lang (Char c) [c]
| LNotIn atoms c : notin atoms c = true -> Lang (NotIn atoms) [c]
| LSeq r1 r2 s1 s2 : Lang r1 s1 -> Lang r2 s2 -> Lang (Seq r1 r2) (s1 ++ s2)
| LAltL r1 r2 s : Lang r1 s -> Lang (Alt r1 r2) s
| LAltR r1 r2 s : Lang r2 s -> Lang (Alt r1 r2) s
| LStarNil r : Lang (Star r) []
| LStarApp r s1 s2 : Lang r s1 -> Lang (Star r) s2 -> Lang (Star r) (s1 ++ s2).

End RegExp.

Import RegExp.

(* ===================================================================== *)
(** ** Email validation *)
(* ===================================================================== *)

Definition at_sign : char16 := char16_of_ascii "@".
Definition full_stop : char16 := char16_of_ascii ".".

(** [[^\s@]] *)
Definition not_space_at : regex := NotIn [ClassSpace; ClassChar at_sign].

(** [const re = /^[^\s@]+@[^\s@]+\.[^\s@]+$/;] (the anchors are in [test]) *)
Definition re : regex :=
  Seq (Plus not_space_at)
      (Seq (Char at_sign)
           (Seq (Plus not_space_at)
                (Seq (Char full_stop)
                     (Plus not_space_at)))).

Definition validateEmail (email : jsstring) : bool := test re email.

(* ===================================================================== *)
(** ** Data model *)
(* ===================================================================== *)

(** [export type Customer].  An optional property is [None] when it is
    absent ([undefined]). *)
Module Customer.
Record t : Type := make {
  firstName : jsstring;
  lastName : jsstring;
  email : jsstring;
  businessName : option jsstring
}.
End Customer.

(** [export type Customers = Customer[]] *)
Definition Customers : Type := list Customer.t.

(** [export type ApiError] *)
Module ApiError.
Record t : Type := make {
  code : jsstring;
  message : jsstring
}.
End ApiError.

(** [Omit<Customer, "email">], the type of the [newCustomer] state. *)
Module NewCustomer.
Record t : Type := make {
  firstName : jsstring;
  lastName : jsstring;
  businessName : option jsstring
}.
End NewCustomer.

(** The JSON values of the endpoint: an array of customers or an error
    object. *)
Inductive Body : Type :=
| CustomersBody (customers : Customers)
| ApiErrorBody (e : ApiError.t).

(* ===================================================================== *)
(** ** The platform: fetch, responses, exceptions *)
(* ===================================================================== *)

(** An [Error] object made by the platform: the [TypeError] of a fetch
    that fails in transport, the [SyntaxError] of a body that is not
    JSON.  Only [message] is ever read. *)
Record JsError : Type := {
  error_name : jsstring;
  error_message : jsstring
}.

Section Platform.

(** The type of parsed bodies ([any] in the source). *)
Variable B : Type.

(** What [await response.json()] gives. *)
Inductive JsonResult : Type :=
| JsonOk (body : B)
| JsonFail (e : JsError).

Record Response : Type := {
  ok : bool;
  json : JsonResult
}.

(** How the promise of [fetch] settles. *)
Inductive FetchOutcome : Type :=
| Resolved (response : Response)
| Rejected (e : JsError).

(** A thrown value: a parsed body, thrown as it is, or an [Error]
    object. *)
Inductive Thrown : Type :=
| ThrownBody (body : B)
| ThrownError (e : JsError).

(** How a piece of code completes. *)
Inductive Completion (A : Type) : Type :=
| Normal (a : A)
| Abrupt (t : Thrown).

End Platform.

Arguments JsonFail {B} e.
Arguments Rejected {B} e.
Arguments ThrownError {B} e.
Arguments Normal {B A} a.
Arguments Abrupt {B A} t.

(** The [init] argument of the POST; [JSON.stringify] of an object with
    the properties of a customer is kept as that object (a property that
    is [undefined] is left out of the text). *)
Record Request : Type := {
  url : jsstring;
  method : jsstring;
  headers : list (jsstring * jsstring);
  body : Customer.t
}.

(** What a handler does to the world outside the component state. *)
Inductive Event : Type :=
| Fetch (req : Request)
| Mutate
| ConsoleError (label : jsstring) (err : Thrown Body).

(* ===================================================================== *)
(** ** A monad for handlers: state, events, exceptions *)
(* ===================================================================== *)

Section Eff.

Variable S : Type.

Definition Eff (A : Type) : Type :=
  S -> Completion Body A * S * list Event.

Definition ret {A} (a : A) : Eff A :=
  fun s => (Normal a, s, []).

Definition bind {A C} (m : Eff A) (k : A -> Eff C) : Eff C :=
  fun s =>
    match m s with
    | (Normal a, s1, ev1) =>
        match k a s1 with
        | (c, s2, ev2) => (c, s2, ev1 ++ ev2)
        end
    | (Abrupt t, s1, ev1) => (Abrupt t, s1, ev1)
    end.

Definition throw {A} (t : Thrown Body) : Eff A :=
  fun s => (Abrupt t, s, []).

(** [try { m } catch (err) { h err }] *)
Definition try_catch {A} (m : Eff A) (h : Thrown Body -> Eff A) : Eff A :=
  fun s =>
    match m s with
    | (Normal a, s1, ev1) => (Normal a, s1, ev1)
    | (Abrupt t, s1, ev1) =>
        match h t s1 with
        | (c, s2, ev2) => (c, s2, ev1 ++ ev2)
        end
    end.

Definition read {A} (f : S -> A) : Eff A :=
  fun s => (Normal (f s), s, []).

Definition modify (f : S -> S) : Eff unit :=
  fun s => (Normal tt, f s, []).

Definition emit (e : Event) : Eff unit :=
  fun s => (Normal tt, s, [e]).

(** [await p] once the promise [p] of [fetch] has settled. *)
Definition await_fetch (o : FetchOutcome Body) : Eff (Response Body) :=
  match o with
  | Resolved response => ret response
  | Rejected e => throw (ThrownError e)
  end.

(** [await response.json()] *)
Definition await_json (response : Response Body) : Eff Body :=
  match json response with
  | JsonOk body => ret body
  | JsonFail e => throw (ThrownError e)
  end.

Definition completion {A} (r : Completion Body A * S * list Event) :=
  fst (fst r).
Definition final {A} (r : Completion Body A * S * list Event) : S :=
  snd (fst r).
Definition events {A} (r : Completion Body A * S * list Event) : list Event :=
  snd r.

End Eff.

Declare Scope eff_scope.
Delimit Scope eff_scope with eff.
Notation "x <- m ;; k" := (bind m (fun x => k))
  (at level 61, m at next level, right associativity) : eff_scope.
Notation "m ;; k" := (bind m (fun _ => k))
  (at level 61, right associativity) : eff_scope.

(** An [async] function either finishes in the turn it was called in, or
    stops at the [await] of a request; [k] is the rest of the function,
    run when the request settles. *)
Inductive Async (S : Type) : Type :=
| Done
| Await (req : Request) (k : FetchOutcome Body -> Eff S unit).

Arguments Done {S}.

Local Open Scope eff_scope.

(* ===================================================================== *)
(** ** The fetcher *)
(* ===================================================================== *)

Section Fetcher.

Variable B : Type.

(** How the GET of a url settles. *)
Variable fetch : jsstring -> FetchOutcome B.

(** [const fetcher = async (url: string) => { ... }]:
    the promise it returns is fulfilled with [Normal] and rejected with
    [Abrupt]. *)
Definition fetcher (url : jsstring) : Completion B B :=
  match fetch url with                       (* await fetch(url) *)
  | Rejected e => Abrupt (ThrownError e)
  | Resolved response =>
      match json response with               (* await response.json() *)
      | JsonFail e => Abrupt (ThrownError e)
      | JsonOk body =>
          if negb (ok response) then Abrupt (ThrownBody body)
          else Normal body
      end
  end.

End Fetcher.

(* ===================================================================== *)
(** ** The component [Home]: state and handlers *)
(* ===================================================================== *)

(** The [name] of the text fields that [handleInputChange] is attached
    to. *)
Inductive FieldName : Type :=
| firstNameField
| lastNameField
| businessNameField.

Module Home.

(** The four [React.useState] cells. *)
Record State : Type := {
  open : bool;
  newCustomer : NewCustomer.t;
  email : jsstring;
  emailError : jsstring
}.

Definition initial : State := {|
  open := false;
  newCustomer := NewCustomer.make (js "") (js "") (Some (js ""));
  email := js "";
  emailError := js ""
|}.

Definition setOpen (v : bool) : Eff State unit :=
  modify (fun s => {| open := v; newCustomer := newCustomer s;
                      email := email s; emailError := emailError s |}).

Definition setNewCustomer (f : NewCustomer.t -> NewCustomer.t) : Eff State unit :=
  modify (fun s => {| open := open s; newCustomer := f (newCustomer s);
                      email := email s; emailError := emailError s |}).

Definition setEmail (v : jsstring) : Eff State unit :=
  modify (fun s => {| open := open s; newCustomer := newCustomer s;
                      email := v; emailError := emailError s |}).

Definition setEmailError (v : jsstring) : Eff State unit :=
  modify (fun s => {| open := open s; newCustomer := newCustomer s;
                      email := email s; emailError := v |}).

(** [mutate()] of SWR and [console.error]. *)
Definition mutate : Eff State unit := emit Mutate.
Definition console_error (label : jsstring) (err : Thrown Body) : Eff State unit :=
  emit (ConsoleError label err).

Definition handleClickOpen : Eff State unit := setOpen true.

Definition handleClose : Eff State unit :=
  setOpen false ;;
  setNewCustomer (fun _ => NewCustomer.make (js "") (js "") (Some (js ""))) ;;
  setEmail (js "") ;;
  setEmailError (js "").

(** [{ ...prev, [name]: value }] *)
Definition set_field (name : FieldName) (value : jsstring)
    (prev : NewCustomer.t) : NewCustomer.t :=
  match name with
  | firstNameField =>
      NewCustomer.make value (NewCustomer.lastName prev) (NewCustomer.businessName prev)
  | lastNameField =>
      NewCustomer.make (NewCustomer.firstName prev) value (NewCustomer.businessName prev)
  | businessNameField =>
      NewCustomer.make (NewCustomer.firstName prev) (NewCustomer.lastName prev) (Some value)
  end.

Definition handleInputChange (name : FieldName) (value : jsstring) : Eff State unit :=
  setNewCustomer (set_field name value).

(** The [onChange] of the e-mail field. *)
Definition handleEmailChange (value : jsstring) : Eff State unit :=
  setEmail value ;;
  emailError <- read emailError ;;
  if negb (falsy emailError) then setEmailError (js "") else ret tt.

(** [{ ...newCustomer, email }] *)
Definition payload (newCustomer : NewCustomer.t) (email : jsstring) : Customer.t :=
  Customer.make (NewCustomer.firstName newCustomer)
                (NewCustomer.lastName newCustomer)
                email
                (NewCustomer.businessName newCustomer).

Definition post_request (newCustomer : NewCustomer.t) (email : jsstring) : Request := {|
  url := js "/api/customers";
  method := js "POST";
  headers := [(js "Content-Type", js "application/json")];
  body := payload newCustomer email
|}.

(** [handleAddCustomer] after [await fetch(...)]: the rest of the [try]
    block and the [catch].  [throw await response.json()] waits once
    more; nothing of the handler runs in between, and what it throws is
    caught either way. *)
Definition handleAddCustomer_settled (settled : FetchOutcome Body) : Eff State unit :=
  try_catch
    (response <- await_fetch settled ;;
     (if negb (ok response)
      then (body <- await_json response ;; throw (ThrownBody body))
      else ret tt) ;;
     mutate ;;
     handleClose)
    (fun err => console_error (js "Failed to add customer:") err).

(** [handleAddCustomer] up to [await fetch(...)]. *)
Definition handleAddCustomer : Eff State (Async State) :=
  email <- read email ;;
  if negb (validateEmail email) then
    setEmailError (js "Please enter a valid email address") ;;
    ret Done
  else
    newCustomer <- read newCustomer ;;
    let req := post_request newCustomer email in
    emit (Fetch req) ;;
    ret (Await req handleAddCustomer_settled).

(** The [disabled] property of the Create button. *)
Definition createDisabled (s : State) : bool :=
  falsy (NewCustomer.firstName (newCustomer s))
  || falsy (NewCustomer.lastName (newCustomer s))
  || falsy (email s)
  || negb (validateEmail (email s)).

End Home.

(* ===================================================================== *)
(** ** The SWR hook *)
(* ===================================================================== *)

Module SWR.

(** Modelled from the spec: the hook [useSWR] is a library, not part of
    the source.  The spec's Data Fetcher (section 4.1) has three
    observable states: loading (a request is in flight), error (carrying
    what the fetcher threw) and data (what the fetcher returned); a
    failed fetch surfaces the error and leaves earlier data untouched; a
    revalidation runs the fetch again and updates the same states. *)
Record State : Type := {
  data : option Body;
  error : option (Thrown Body);
  inflight : nat
}.

(** Modelled from the spec: the loading state of the hook, "request in
    flight". *)
Definition isLoading (s : State) : bool := 0 <? inflight s.

(** Modelled from the spec: the hook when the component mounts; the
    first GET is on its way. *)
Definition initial : State := {| data := None; error := None; inflight := 1 |}.

(** Modelled from the spec: the revalidate operation of the hook, which
    runs the fetch again. *)
Definition revalidate (s : State) : State :=
  {| data := data s; error := error s; inflight := S (inflight s) |}.

(** Modelled from the spec: the hook when the promise of the fetcher
    settles.  A value becomes [data]; a thrown value becomes [error] and
    leaves [data] as it was. *)
Definition settle (result : Completion Body Body) (s : State) : State :=
  match result with
  | Normal body =>
      {| data := Some body; error := None; inflight := pred (inflight s) |}
  | Abrupt t =>
      {| data := data s; error := Some t; inflight := pred (inflight s) |}
  end.

End SWR.

(* ===================================================================== *)
(** ** What [Home] renders *)
(* ===================================================================== *)

(** [x || y] for an optional string [x]: [undefined] and the empty string
    are falsy. *)
Definition or_else (x : option jsstring) (y : jsstring) : jsstring :=
  match x with
  | Some s => if falsy s then y else s
  | None => y
  end.

(** The name cell of a row:
    [customer.businessName || `${customer.firstName} ${customer.lastName}`] *)
Definition nameCell (customer : Customer.t) : jsstring :=
  or_else (Customer.businessName customer)
          (Customer.firstName customer ++ js " " ++ Customer.lastName customer).

(** The count in the header:
    [{data.length} {data.length === 1 ? "Customer" : "Customers"}] *)
Definition countLabel (data : Customers) : jsstring :=
  string_of_length (List.length data) ++ js " " ++
  (if Nat.eqb (List.length data) 1 then js "Customer" else js "Customers").

Record Row : Type := {
  key : jsstring;
  name_cell : jsstring;
  email_cell : jsstring
}.

Definition renderRow (customer : Customer.t) : Row := {|
  key := Customer.email customer;
  name_cell := nameCell customer;
  email_cell := Customer.email customer
|}.

Record TableView : Type := {
  count_label : jsstring;
  rows : list Row
}.

Definition renderTable (data : Customers) : TableView := {|
  count_label := countLabel data;
  rows := List.map renderRow data
|}.

(** [error.message]: [None] is [undefined] (an array has no such
    property). *)
Definition message_of (err : Thrown Body) : option jsstring :=
  match err with
  | ThrownBody (ApiErrorBody e) => Some (ApiError.message e)
  | ThrownBody (CustomersBody _) => None
  | ThrownError e => Some (error_message e)
  end.

(** [Error: {error.message}]; React renders nothing for [undefined]. *)
Definition errorLine (err : Thrown Body) : jsstring :=
  js "Error: " ++ match message_of err with Some m => m | None => [] end.

Record TextFieldView : Type := {
  value : jsstring;
  error : bool;
  helperText : jsstring
}.

Record DialogView : Type := {
  dialog_open : bool;
  firstName_field : TextFieldView;
  lastName_field : TextFieldView;
  businessName_field : TextFieldView;
  email_field : TextFieldView;
  create_disabled : bool
}.

Definition renderDialog (s : Home.State) : DialogView :=
  let newCustomer := Home.newCustomer s in
  let email := Home.email s in
  let emailError := Home.emailError s in
  {| dialog_open := Home.open s;
     firstName_field :=
       {| value := NewCustomer.firstName newCustomer;
          error := falsy (NewCustomer.firstName newCustomer);
          helperText := if falsy (NewCustomer.firstName newCustomer)
                        then js "Required" else js "" |};
     lastName_field :=
       {| value := NewCustomer.lastName newCustomer;
          error := falsy (NewCustomer.lastName newCustomer);
          helperText := if falsy (NewCustomer.lastName newCustomer)
                        then js "Required" else js "" |};
     businessName_field :=
       {| value := or_else (NewCustomer.businessName newCustomer) (js "");
          error := false;
          helperText := js "" |};
     email_field :=
       {| value := email;
          error := negb (falsy emailError) || falsy email;
          helperText := if negb (falsy emailError) then emailError
                        else if falsy email then js "Required" else js "" |};
     create_disabled := Home.createDisabled s |}.

Record View : Type := {
  loading_line : option jsstring;
  error_line : option jsstring;
  table : option TableView;
  dialog : DialogView
}.

(** The tree that [Home] returns, as far as it depends on the state.
    [None]: rendering throws, which happens when [data] is not an array
    ([data.map] is not a function). *)
Definition render (swr : SWR.State) (s : Home.State) : option View :=
  let loading_line :=
    if SWR.isLoading swr then Some (js "Loading...") else None in
  let error_line :=
    match SWR.error swr with
    | Some err => Some (errorLine err)
    | None => None
    end in
  match SWR.data swr with
  | None =>
      Some {| loading_line := loading_line; error_line := error_line;
              table := None; dialog := renderDialog s |}
  | Some (CustomersBody data) =>
      Some {| loading_line := loading_line; error_line := error_line;
              table := Some (renderTable data); dialog := renderDialog s |}
  | Some (ApiErrorBody _) => None
  end.

(* ===================================================================== *)
(** ** The page as a transition system *)
(* ===================================================================== *)

Module Page.

(** The component state, the state of the hook, the continuations of
    the calls of [handleAddCustomer] that wait for their response, and
    the events so far, the oldest first. *)
Record State : Type := {
  home : Home.State;
  swr : SWR.State;
  pending : list (FetchOutcome Body -> Eff Home.State unit);
  trace : list Event
}.

Definition initial : State := {|
  home := Home.initial;
  swr := SWR.initial;
  pending := [];
  trace := []
|}.

(** What the user and the network can do to the page.  [PostSettled i]
    settles the [i]-th waiting POST, [GetSettled] the GET of the hook. *)
Inductive Input : Type :=
| ClickAddCustomer
| ClickCancel
| DialogOnClose
| ChangeField (name : FieldName) (value : jsstring)
| ChangeEmail (value : jsstring)
| ClickCreate
| PostSettled (i : nat) (settled : FetchOutcome Body)
| GetSettled (settled : FetchOutcome Body).

(** [mutate()] starts a revalidation of the hook. *)
Definition notify (w : SWR.State) (e : Event) : SWR.State :=
  match e with
  | Mutate => SWR.revalidate w
  | _ => w
  end.

(** Run a handler on the page. *)
Definition run {A} (h : Eff Home.State A) (p : State)
    : Completion Body A * State :=
  match h (home p) with
  | (c, s, evs) =>
      (c, {| home := s;
             swr := fold_left notify evs (swr p);
             pending := pending p;
             trace := trace p ++ evs |})
  end.

Definition wait (k : FetchOutcome Body -> Eff Home.State unit) (p : State) : State :=
  {| home := home p; swr := swr p; pending := pending p ++ [k]; trace := trace p |}.

Fixpoint remove_nth {A} (i : nat) (l : list A) : list A :=
  match l, i with
  | [], _ => []
  | _ :: l', O => l'
  | x :: l', S i' => x :: remove_nth i' l'
  end.

Definition resume (i : nat) (p : State) : State :=
  {| home := home p; swr := swr p; pending := remove_nth i (pending p);
     trace := trace p |}.

(** One transition; [None] when the input cannot happen in the state:
    the Add Customer button is part of the table, a disabled button does
    not fire [onClick], and only a request in flight can settle.  The
    controls of the dialog are not guarded by [open]. *)
Definition step (p : State) (i : Input) : option State :=
  match i with
  | ClickAddCustomer =>
      match SWR.data (swr p) with
      | Some (CustomersBody _) => Some (snd (run Home.handleClickOpen p))
      | _ => None
      end
  | ClickCancel => Some (snd (run Home.handleClose p))
  | DialogOnClose => Some (snd (run Home.handleClose p))
  | ChangeField name value => Some (snd (run (Home.handleInputChange name value) p))
  | ChangeEmail value => Some (snd (run (Home.handleEmailChange value) p))
  | ClickCreate =>
      if Home.createDisabled (home p) then None
      else
        match run Home.handleAddCustomer p with
        | (Normal (Await _ k), p') => Some (wait k p')
        | (_, p') => Some p'
        end
  | PostSettled i settled =>
      match nth_error (pending p) i with
      | Some k => Some (snd (run (k settled) (resume i p)))
      | None => None
      end
  | GetSettled settled =>
      if SWR.isLoading (swr p) then
        Some {| home := home p;
                swr := SWR.settle (fetcher (fun _ => settled) (js "/api/customers"))
                                  (swr p);
                pending := pending p;
                trace := trace p |}
      else None
  end.

(** A sequence of transitions. *)
Fixpoint steps (p : State) (inputs : list Input) : option State :=
  match inputs with
  | [] => Some p
  | i :: inputs' =>
      match step p i with
      | Some p' => steps p' inputs'
      | None => None
      end
  end.

(** The states of the page. *)
Inductive reachable : State -> Prop :=
| reachable_initial : reachable initial
| reachable_step p i p' : reachable p -> step p i = Some p' -> reachable p'.

Definition is_mutate (e : Event) : bool :=
  match e with Mutate => true | _ => false end.

Definition is_fetch (e : Event) : bool :=
  match e with Fetch _ => true | _ => false end.

(** The array of customers on display, if there is one. *)
Definition displayed (p : State) : option Customers :=
  match SWR.data (swr p) with
  | Some (CustomersBody data) => Some data
  | _ => None
  end.

End Page.

(* ===================================================================== *)
(** ** The shape of an accepted e-mail address *)
(* ===================================================================== *)

(** A character that is neither white space nor [@]. *)
Definition plain (c : char16) : Prop := isSpace c = false /\ c <> at_sign.

(** A non-empty run of such characters. *)
Definition run_of_plain (s : jsstring) : Prop := s <> [] /\ Forall plain s.

(** [local@domain.tld]: a run, one [@], and a run that has a full stop
    with text on both sides of it. *)
Definition email_shape (s : jsstring) : Prop :=
  exists local rest,
    s = local ++ at_sign :: rest
    /\ run_of_plain local
    /\ run_of_plain rest
    /\ exists domain tld,
         rest = domain ++ full_stop :: tld /\ domain <> [] /\ tld <> [].

(** The shape in the words of the spec: a run, one [@], and a run that
    contains a full stop with non-empty text after it.  Nothing is asked
    of the text between the [@] and the full stop. *)
Definition email_shape_as_stated (s : jsstring) : Prop :=
  exists local rest,
    s = local ++ at_sign :: rest
    /\ run_of_plain local
    /\ run_of_plain rest
    /\ exists before tld,
         rest = before ++ full_stop :: tld /\ tld <> [].

(* ===================================================================== *)
(** ** Vocabulary of the properties *)
(* ===================================================================== *)

(** The POST failed: the response is not 2xx, or the transport failed. *)
Definition post_failed (settled : FetchOutcome Body) : Prop :=
  match settled with
  | Resolved response => ok response = false
  | Rejected _ => True
  end.

(** The state that [handleClose] leaves: the dialog closed, the draft
    and the e-mail error empty. *)
Definition closed_and_blank (s : Home.State) : Prop :=
  Home.open s = false
  /\ NewCustomer.firstName (Home.newCustomer s) = js ""
  /\ NewCustomer.lastName (Home.newCustomer s) = js ""
  /\ NewCustomer.businessName (Home.newCustomer s) = Some (js "")
  /\ Home.email s = js ""
  /\ Home.emailError s = js "".

(** The four text fields of the dialog show nothing. *)
Definition blank_fields (d : DialogView) : Prop :=
  value (firstName_field d) = js ""
  /\ value (lastName_field d) = js ""
  /\ value (businessName_field d) = js ""
  /\ value (email_field d) = js "".

(** The draft with another business name. *)
Definition with_businessName (b : option jsstring) (s : Home.State) : Home.State :=
  {| Home.open := Home.open s;
     Home.newCustomer :=
       NewCustomer.make (NewCustomer.firstName (Home.newCustomer s))
                        (NewCustomer.lastName (Home.newCustomer s)) b;
     Home.email := Home.email s;
     Home.emailError := Home.emailError s |}.

(** The number that a string of decimal digits denotes. *)
Definition ascii_of_char16 (c : char16) : ascii := ascii_of_N c.

Definition decimal_value (s : jsstring) : option nat :=
  if forallb (fun c => c <? 256)%N s then
    option_map Nat.of_uint
      (NilEmpty.uint_of_string (string_of_list_ascii (List.map ascii_of_char16 s)))
  else None.

(** How often a trace asks for a revalidation, and how many POSTs it
    issues. *)
Definition mutates (tr : list Event) : nat := List.length (filter Page.is_mutate tr).
Definition fetches (tr : list Event) : nat := List.length (filter Page.is_fetch tr).

(** Every waiting continuation is the rest of [handleAddCustomer]. *)
Definition waiting_for_response (p : Page.State) : Prop :=
  Forall (fun k => k = Home.handleAddCustomer_settled) (Page.pending p).

(** The url of the customers endpoint. *)
Definition customers_url : jsstring := js "/api/customers".

(* ===================================================================== *)
(** ** Sample values *)
(* ===================================================================== *)

(** The draft of the spec's scenario, typed into the open dialog. *)
Definition jane_draft : Home.State := {|
  Home.open := true;
  Home.newCustomer := NewCustomer.make (js "Jane") (js "Doe") (Some (js ""));
  Home.email := js "jane@doe.com";
  Home.emailError := js ""
|}.

(** The same names with the address of the spec's failing scenario. *)
Definition bob_draft : Home.State := {|
  Home.open := true;
  Home.newCustomer := NewCustomer.make (js "Bob") (js "Example") (Some (js ""));
  Home.email := js "bob@example";
  Home.emailError := js ""
|}.

Definition server_error : ApiError.t := ApiError.make (js "500") (js "Server error").

(** A non-2xx response that carries [server_error]. *)
Definition server_error_response : Response Body :=
  {| ok := false; json := JsonOk (ApiErrorBody server_error) |}.

(** A 2xx response to the POST. *)
Definition created_response : Response Body :=
  {| ok := true; json := JsonOk (CustomersBody []) |}.

(** A non-2xx response whose body is not JSON. *)
Definition bad_gateway_response : Response Body :=
  {| ok := false;
     json := JsonFail {| error_name := js "SyntaxError";
                         error_message := js "Unexpected token" |} |}.

(** A 2xx response to the GET with the given customers. *)
Definition customers_response (data : Customers) : Response Body :=
  {| ok := true; json := JsonOk (CustomersBody data) |}.

Definition acme : Customer.t :=
  Customer.make (js "Jane") (js "Doe") (js "jane@acme.com") (Some (js "Acme")).

Definition jane : Customer.t :=
  Customer.make (js "Jane") (js "Doe") (js "jane@doe.com") None.

(** Jane as the form itself posts her: the business name left blank. *)
Definition jane_blank : Customer.t :=
  Customer.make (js "Jane") (js "Doe") (js "jane@doe.com") (Some (js "")).

(** The scenario of the spec: the list arrives, the user opens the
    dialog, types Jane's draft and presses Create; the POST succeeds and
    the list arrives again with Jane appended. *)
Definition jane_scenario : list Page.Input :=
  [ Page.GetSettled (Resolved (customers_response [acme]));
    Page.ClickAddCustomer;
    Page.ChangeField firstNameField (js "Jane");
    Page.ChangeField lastNameField (js "Doe");
    Page.ChangeEmail (js "jane@doe.com");
    Page.ClickCreate;
    Page.PostSettled 0 (Resolved created_response);
    Page.GetSettled (Resolved (customers_response [acme; jane_blank])) ].

(** The text that the dialog shows in the text field with a given
    [name]. *)
Definition shown (name : FieldName) (d : DialogView) : jsstring :=
  match name with
  | firstNameField => value (firstName_field d)
  | lastNameField => value (lastName_field d)
  | businessNameField => value (businessName_field d)
  end.

(** How many failures a trace logs. *)
Definition is_console_error (e : Event) : bool :=
  match e with ConsoleError _ _ => true | _ => false end.

Definition errors (tr : list Event) : nat :=
  List.length (filter is_console_error tr).

(** A request as the Create button can issue it: a JSON POST to the
    customers endpoint whose body has a first name, a last name, an
    address of the accepted shape and a [businessName] property. *)
Definition well_formed_post (req : Request) : Prop :=
  url req = customers_url
  /\ method req = js "POST"
  /\ headers req = [(js "Content-Type", js "application/json")]
  /\ Customer.firstName (body req) <> js ""
  /\ Customer.lastName (body req) <> js ""
  /\ email_shape (Customer.email (body req))
  /\ Customer.businessName (body req) <> None.

(** No text field of the dialog is flagged and none has a helper text. *)
Definition no_field_complains (d : DialogView) : Prop :=
  error (firstName_field d) = false /\ helperText (firstName_field d) = js ""
  /\ error (lastName_field d) = false /\ helperText (lastName_field d) = js ""
  /\ error (businessName_field d) = false /\ helperText (businessName_field d) = js ""
  /\ error (email_field d) = false /\ helperText (email_field d) = js "".

(** The user opens the dialog and types a draft whose e-mail has no
    top-level domain. *)
Definition bob_typing : list Page.Input :=
  [ Page.GetSettled (Resolved (customers_response [acme]));
    Page.ClickAddCustomer;
    Page.ChangeField firstNameField (js "Bob");
    Page.ChangeField lastNameField (js "Example");
    Page.ChangeEmail (js "bob@example") ].

(** The user presses Create three times; the second POST fails, then
    the third succeeds, and the first is still waiting. *)
Definition three_clicks : list Page.Input :=
  [ Page.GetSettled (Resolved (customers_response [acme]));
    Page.ClickAddCustomer;
    Page.ChangeField firstNameField (js "Jane");
    Page.ChangeField lastNameField (js "Doe");
    Page.ChangeEmail (js "jane@doe.com");
    Page.ClickCreate; Page.ClickCreate; Page.ClickCreate;
    Page.PostSettled 1 (Resolved server_error_response);
    Page.PostSettled 1 (Resolved created_response) ].

(* ===================================================================== *)
(** * Properties *)
(* ===================================================================== *)

(** ** The matcher decides the language of a pattern *)

Section RegExpFacts.

Lemma Lang_Seq_inv r1 r2 s :
  Lang (Seq r1 r2) s <-> exists s1 s2, s = s1 ++ s2 /\ Lang r1 s1 /\ Lang r2 s2.
Proof.
  split.
  - intros H. inversion H; subst. eauto.
  - intros (s1 & s2 & -> & H1 & H2). now constructor.
Qed.

Lemma Lang_Alt_inv r1 r2 s :
  Lang (Alt r1 r2) s <-> Lang r1 s \/ Lang r2 s.
Proof.
  split.
  - intros H. inversion H; subst; auto.
  - intros [H | H]; [now apply LAltL | now apply LAltR].
Qed.

Lemma Lang_Char_inv c s : Lang (Char c) s <-> s = [c].
Proof.
  split.
  - intros H. now inversion H.
  - intros ->. constructor.
Qed.

Lemma Lang_Eps_inv s : Lang Eps s <-> s = [].
Proof.
  split.
  - intros H. now inversion H.
  - intros ->. constructor.
Qed.

Lemma Lang_NotIn_inv atoms s :
  Lang (NotIn atoms) s <-> exists c, s = [c] /\ notin atoms c = true.
Proof.
  split.
  - intros H. inversion H; subst. eauto.
  - intros (c & -> & H). now constructor.
Qed.

Lemma Lang_Void_inv s : ~ Lang Void s.
Proof. intros H. inversion H. Qed.

Lemma nullable_sound r : nullable r = true -> Lang r [].
Proof.
  induction r; simpl; intros H; try discriminate.
  - constructor.
  - apply andb_true_iff in H as [H1 H2].
    change (@nil char16) with (@nil char16 ++ []). constructor; auto.
  - apply orb_true_iff in H as [H | H]; [apply LAltL | apply LAltR]; auto.
  - constructor.
Qed.

Lemma nullable_complete r s : Lang r s -> s = [] -> nullable r = true.
Proof.
  induction 1; simpl; intros E; try discriminate; auto.
  - apply app_eq_nil in E as [-> ->]. rewrite IHLang1, IHLang2; auto.
  - rewrite IHLang; auto.
  - rewrite IHLang; auto. apply orb_true_r.
Qed.

Lemma nullable_Lang r : nullable r = true <-> Lang r [].
Proof.
  split; [apply nullable_sound | intros H; now apply (nullable_complete H)].
Qed.

Lemma deriv_sound c r : forall s, Lang (deriv c r) s -> Lang r (c :: s).
Proof.
  induction r; simpl; intros s H.
  - now apply Lang_Void_inv in H.
  - now apply Lang_Void_inv in H.
  - destruct (N.eqb_spec c c0) as [-> | _].
    + apply Lang_Eps_inv in H as ->. constructor.
    + now apply Lang_Void_inv in H.
  - destruct (notin atoms c) eqn:E.
    + apply Lang_Eps_inv in H as ->. now constructor.
    + now apply Lang_Void_inv in H.
  - destruct (nullable r1) eqn:E.
    + apply Lang_Alt_inv in H as [H | H].
      * apply Lang_Seq_inv in H as (s1 & s2 & -> & H1 & H2).
        change (c :: s1 ++ s2) with ((c :: s1) ++ s2). constructor; auto.
      * change (c :: s) with ([] ++ c :: s).
        constructor; auto. now apply nullable_sound.
    + apply Lang_Seq_inv in H as (s1 & s2 & -> & H1 & H2).
      change (c :: s1 ++ s2) with ((c :: s1) ++ s2). constructor; auto.
  - apply Lang_Alt_inv in H as [H | H]; [apply LAltL | apply LAltR]; auto.
  - apply Lang_Seq_inv in H as (s1 & s2 & -> & H1 & H2).
    change (c :: s1 ++ s2) with ((c :: s1) ++ s2). constructor; auto.
Qed.

Lemma deriv_complete c r w :
  Lang r w -> forall t, w = c :: t -> Lang (deriv c r) t.
Proof.
  induction 1; intros t E; simpl; try discriminate.
  - injection E as -> <-. rewrite N.eqb_refl. constructor.
  - injection E as -> <-. rewrite H. constructor.
  - destruct s1 as [| c1 s1]; simpl in E.
    + subst s2. rewrite (nullable_complete H eq_refl).
      apply LAltR. auto.
    + injection E as -> <-.
      destruct (nullable r1).
      * apply LAltL. constructor; auto.
      * constructor; auto.
  - apply LAltL. auto.
  - apply LAltR. auto.
  - destruct s1 as [| c1 s1]; simpl in E.
    + apply (IHLang2 _ E).
    + injection E as -> <-. constructor; auto.
Qed.

Lemma deriv_Lang c r s : Lang (deriv c r) s <-> Lang r (c :: s).
Proof.
  split; [apply deriv_sound | intros H; now apply (deriv_complete H)].
Qed.

(** [test] accepts exactly the strings of the pattern. *)
Lemma test_Lang s : forall r, test r s = true <-> Lang r s.
Proof.
  induction s as [| c s IH]; intros r; simpl.
  - apply nullable_Lang.
  - rewrite IH. apply deriv_Lang.
Qed.

End RegExpFacts.

(** ** The language of the e-mail pattern *)

Section EmailFacts.

Lemma notin_plain c : notin [ClassSpace; ClassChar at_sign] c = true <-> plain c.
Proof.
  unfold notin, plain. simpl. rewrite orb_false_r, negb_true_iff, orb_false_iff.
  now rewrite N.eqb_neq.
Qed.

Lemma plain_full_stop : plain full_stop.
Proof. split; [reflexivity | discriminate]. Qed.

Lemma Lang_class s : Lang not_space_at s <-> exists c, s = [c] /\ plain c.
Proof.
  unfold not_space_at. rewrite Lang_NotIn_inv.
  split; intros (c & E & H); exists c; split; auto; now apply notin_plain.
Qed.

Lemma Lang_star_plain_sound r s :
  Lang r s -> r = Star not_space_at -> Forall plain s.
Proof.
  induction 1; intros E; try discriminate.
  - constructor.
  - injection E as ->. apply Forall_app. split; auto.
    apply Lang_class in H as (c & -> & Hc). constructor; [exact Hc | constructor].
Qed.

Lemma Lang_star_plain s : Lang (Star not_space_at) s <-> Forall plain s.
Proof.
  split.
  - intros H. now apply (Lang_star_plain_sound H).
  - induction 1 as [| c s Hc _ IH].
    + constructor.
    + change (c :: s) with ([c] ++ s). constructor; auto.
      apply Lang_class. eauto.
Qed.

Lemma Lang_plus_plain s : Lang (Plus not_space_at) s <-> run_of_plain s.
Proof.
  unfold Plus, run_of_plain. rewrite Lang_Seq_inv. split.
  - intros (s1 & s2 & -> & H1 & H2).
    apply Lang_class in H1 as (c & -> & Hc). apply Lang_star_plain in H2.
    split; [discriminate | now constructor].
  - intros [Hne H]. destruct H as [| c s Hc H]; [now destruct Hne |].
    exists [c], s. repeat split.
    + apply Lang_class. eauto.
    + now apply Lang_star_plain.
Qed.

(** The pattern read off part by part. *)
Lemma Lang_re s :
  Lang re s <->
  exists local domain tld,
    s = local ++ at_sign :: domain ++ full_stop :: tld
    /\ run_of_plain local /\ run_of_plain domain /\ run_of_plain tld.
Proof.
  unfold re. split.
  - intros H.
    apply Lang_Seq_inv in H as (local & s1 & -> & Hl & H).
    apply Lang_Seq_inv in H as (a & s2 & -> & Ha & H).
    apply Lang_Seq_inv in H as (domain & s3 & -> & Hd & H).
    apply Lang_Seq_inv in H as (d & tld & -> & Hdot & Ht).
    apply Lang_Char_inv in Ha as ->. apply Lang_Char_inv in Hdot as ->.
    exists local, domain, tld. rewrite <- !Lang_plus_plain. auto.
  - intros (local & domain & tld & -> & Hl & Hd & Ht).
    rewrite <- Lang_plus_plain in Hl, Hd, Ht.
    constructor; auto.
    change (at_sign :: domain ++ full_stop :: tld)
      with ([at_sign] ++ domain ++ [full_stop] ++ tld).
    repeat constructor; auto.
Qed.

Lemma run_of_plain_split domain tld :
  domain <> [] -> tld <> [] ->
  (run_of_plain (domain ++ full_stop :: tld)
   <-> run_of_plain domain /\ run_of_plain tld).
Proof.
  intros Hd Ht. unfold run_of_plain. rewrite Forall_app, Forall_cons_iff.
  split.
  - intros (_ & H1 & _ & H2). auto.
  - intros ((_ & H1) & (_ & H2)). split.
    + destruct domain; [now destruct Hd | discriminate].
    + auto using plain_full_stop.
Qed.

Lemma email_shape_parts s :
  email_shape s <->
  exists local domain tld,
    s = local ++ at_sign :: domain ++ full_stop :: tld
    /\ run_of_plain local /\ run_of_plain domain /\ run_of_plain tld.
Proof.
  unfold email_shape. split.
  - intros (local & rest & -> & Hl & Hr & domain & tld & -> & Hd & Ht).
    exists local, domain, tld. apply run_of_plain_split in Hr; tauto.
  - intros (local & domain & tld & -> & Hl & Hd & Ht).
    exists local, (domain ++ full_stop :: tld). repeat split; try apply Hl.
    + destruct domain; [now destruct Hd | discriminate].
    + apply Forall_app. split; [apply Hd |].
      constructor; [apply plain_full_stop | apply Ht].
    + exists domain, tld. repeat split; [apply Hd | apply Ht].
Qed.

Lemma validateEmail_shape s : validateEmail s = true <-> email_shape s.
Proof.
  unfold validateEmail. now rewrite test_Lang, Lang_re, email_shape_parts.
Qed.

(** The pattern on some addresses: the text before the full stop may not
    be empty, the text after it may itself contain full stops, and a line
    separator counts as white space. *)
Example validateEmail_jane : validateEmail (js "jane@doe.com") = true.
Proof. reflexivity. Qed.

Example validateEmail_empty_domain : validateEmail (js "a@.com") = false.
Proof. reflexivity. Qed.

Example validateEmail_trailing_stop : validateEmail (js "a@b.c.") = true.
Proof. reflexivity. Qed.

Example validateEmail_two_at : validateEmail (js "a@b@c.d") = false.
Proof. reflexivity. Qed.

Example validateEmail_line_separator :
  validateEmail (js "a" ++ [8232%N] ++ js "@b.c") = false.
Proof. reflexivity. Qed.

(** An accepted address has exactly one [@]. *)
Lemma count_at_plain s : Forall plain s -> count_occ char16_eq_dec s at_sign = 0.
Proof.
  induction 1 as [| c s [_ Hc] _ IH]; simpl; auto.
  destruct (char16_eq_dec c at_sign); [contradiction | auto].
Qed.

Lemma email_shape_single_at s :
  email_shape s -> count_occ char16_eq_dec s at_sign = 1.
Proof.
  intros (local & rest & -> & [_ Hl] & [_ Hr] & _).
  rewrite count_occ_app, (count_at_plain Hl).
  rewrite count_occ_cons_eq by reflexivity.
  now rewrite (count_at_plain Hr).
Qed.

End EmailFacts.

(** ** The handlers, case by case *)

Section HandlerFacts.

Lemma falsy_nil (s : jsstring) : falsy s = true <-> s = [].
Proof. destruct s; simpl; split; intros; congruence. Qed.

Lemma falsy_false (s : jsstring) : falsy s = false <-> s <> [].
Proof. destruct s; simpl; split; intros; congruence. Qed.

Lemma handleClose_run s :
  Home.handleClose s = (Normal tt, Home.initial, []).
Proof. reflexivity. Qed.

Lemma handleClickOpen_run s :
  Home.handleClickOpen s =
  (Normal tt,
   {| Home.open := true; Home.newCustomer := Home.newCustomer s;
      Home.email := Home.email s; Home.emailError := Home.emailError s |},
   []).
Proof. reflexivity. Qed.

Lemma handleAddCustomer_invalid s :
  validateEmail (Home.email s) = false ->
  Home.handleAddCustomer s =
  (Normal Done,
   {| Home.open := Home.open s; Home.newCustomer := Home.newCustomer s;
      Home.email := Home.email s;
      Home.emailError := js "Please enter a valid email address" |},
   []).
Proof.
  intros H. unfold Home.handleAddCustomer, bind, read. now rewrite H.
Qed.

Lemma handleAddCustomer_valid s :
  validateEmail (Home.email s) = true ->
  Home.handleAddCustomer s =
  (Normal (Await (Home.post_request (Home.newCustomer s) (Home.email s))
                 Home.handleAddCustomer_settled),
   s,
   [Fetch (Home.post_request (Home.newCustomer s) (Home.email s))]).
Proof.
  intros H. unfold Home.handleAddCustomer, bind, read. now rewrite H.
Qed.

Lemma settled_ok response s :
  ok response = true ->
  Home.handleAddCustomer_settled (Resolved response) s =
  (Normal tt, Home.initial, [Mutate]).
Proof.
  intros H. unfold Home.handleAddCustomer_settled, try_catch, bind. simpl.
  unfold ret. now rewrite H.
Qed.

Lemma settled_not_ok response s :
  ok response = false ->
  Home.handleAddCustomer_settled (Resolved response) s =
  (Normal tt, s,
   [ConsoleError (js "Failed to add customer:")
      match json response with
      | JsonOk body => ThrownBody body
      | JsonFail e => ThrownError e
      end]).
Proof.
  intros H. unfold Home.handleAddCustomer_settled, try_catch, bind. simpl.
  unfold ret, await_json. rewrite H. simpl.
  now destruct (json response).
Qed.

Lemma settled_rejected e s :
  Home.handleAddCustomer_settled (Rejected e) s =
  (Normal tt, s, [ConsoleError (js "Failed to add customer:") (ThrownError e)]).
Proof. reflexivity. Qed.

Lemma settled_failed settled s :
  post_failed settled ->
  exists err,
    Home.handleAddCustomer_settled settled s =
    (Normal tt, s, [ConsoleError (js "Failed to add customer:") err]).
Proof.
  destruct settled as [response | e]; simpl; intros H.
  - rewrite settled_not_ok by exact H. eauto.
  - rewrite settled_rejected. eauto.
Qed.

(** A settled POST either succeeded, and the handler asks for a
    revalidation and closes the dialog, or failed, and it only logs. *)
Lemma settled_cases settled s :
  (exists response, settled = Resolved response /\ ok response = true
     /\ Home.handleAddCustomer_settled settled s = (Normal tt, Home.initial, [Mutate]))
  \/ (post_failed settled
      /\ exists err,
           Home.handleAddCustomer_settled settled s =
           (Normal tt, s, [ConsoleError (js "Failed to add customer:") err])).
Proof.
  destruct settled as [response | e].
  - destruct (ok response) eqn:E.
    + left. exists response. auto using settled_ok.
    + right. split; [exact E | now apply settled_failed].
  - right. split; [exact I | now apply settled_failed].
Qed.

End HandlerFacts.

(** ** The page: what a transition can change *)

Section PageFacts.

Lemma Some_eq A (x y : A) : Some x = Some y -> x = y.
Proof. congruence. Qed.

Ltac stepped H := apply Some_eq in H; subst.

Lemma notify_data evs : forall w,
  SWR.data (fold_left Page.notify evs w) = SWR.data w.
Proof.
  induction evs as [| e evs IH]; intros w; simpl; [reflexivity |].
  rewrite IH. now destruct e.
Qed.

Lemma run_spec A (h : Eff Home.State A) p :
  Page.run h p =
  (completion (h (Page.home p)),
   {| Page.home := final (h (Page.home p));
      Page.swr := fold_left Page.notify (events (h (Page.home p))) (Page.swr p);
      Page.pending := Page.pending p;
      Page.trace := Page.trace p ++ events (h (Page.home p)) |}).
Proof.
  unfold Page.run, completion, final, events.
  now destruct (h (Page.home p)) as [[c s] evs].
Qed.

Lemma run_data A (h : Eff Home.State A) p :
  SWR.data (Page.swr (snd (Page.run h p))) = SWR.data (Page.swr p).
Proof. rewrite run_spec. simpl. apply notify_data. Qed.

(** Only the GET of the hook, settled with a value that the fetcher
    returns, changes [data]. *)
Lemma step_data p i p' :
  Page.step p i = Some p' ->
  SWR.data (Page.swr p') = SWR.data (Page.swr p)
  \/ exists settled body,
       i = Page.GetSettled settled
       /\ fetcher (fun _ => settled) customers_url = Normal body
       /\ SWR.data (Page.swr p') = Some body.
Proof.
  destruct i; unfold Page.step; intros H.
  - destruct (SWR.data (Page.swr p)) as [[data | e] |] eqn:E; try discriminate.
    stepped H. left. rewrite run_data. exact E.
  - stepped H. left. apply run_data.
  - stepped H. left. apply run_data.
  - stepped H. left. apply run_data.
  - stepped H. left. apply run_data.
  - destruct (Home.createDisabled (Page.home p)); [discriminate |].
    left. pose proof (run_data Home.handleAddCustomer p) as D.
    destruct (Page.run Home.handleAddCustomer p) as [[[| req k] | t] q];
      injection H as <-; exact D.
  - destruct (nth_error (Page.pending p) i) as [k |]; [| discriminate].
    stepped H. left. now rewrite run_data.
  - destruct (SWR.isLoading (Page.swr p)); [| discriminate].
    stepped H. simpl.
    fold customers_url.
    destruct (fetcher (fun _ => settled) customers_url) as [body | t] eqn:E.
    + right. exists settled, body. auto.
    + left. reflexivity.
Qed.

Lemma remove_nth_Forall A (P : A -> Prop) (l : list A) :
  Forall P l -> forall i, Forall P (Page.remove_nth i l).
Proof.
  induction 1 as [| x l Hx Hl IH]; intros [| i]; simpl; auto.
Qed.

Lemma remove_nth_length A (l : list A) : forall i x,
  nth_error l i = Some x -> S (List.length (Page.remove_nth i l)) = List.length l.
Proof.
  induction l as [| y l IH]; intros [| i] x; simpl; try discriminate; auto.
  intros H. now rewrite (IH _ _ H).
Qed.

(** The continuation that [handleAddCustomer] leaves is
    [handleAddCustomer_settled]. *)
Lemma handleAddCustomer_await s req k :
  completion (Home.handleAddCustomer s) = Normal (Await req k) ->
  k = Home.handleAddCustomer_settled
  /\ events (Home.handleAddCustomer s) = [Fetch req].
Proof.
  destruct (validateEmail (Home.email s)) eqn:E.
  - rewrite (handleAddCustomer_valid _ E). unfold completion, events. simpl.
    intros H. injection H as <- <-. auto.
  - rewrite (handleAddCustomer_invalid _ E). discriminate.
Qed.

Lemma handleAddCustomer_events s :
  (exists req k, Home.handleAddCustomer s = (Normal (Await req k), s, [Fetch req]))
  \/ (exists s', Home.handleAddCustomer s = (Normal Done, s', [])).
Proof.
  destruct (validateEmail (Home.email s)) eqn:E.
  - left. rewrite (handleAddCustomer_valid _ E). eauto.
  - right. rewrite (handleAddCustomer_invalid _ E). eauto.
Qed.

Lemma reachable_waiting p : Page.reachable p -> waiting_for_response p.
Proof.
  unfold waiting_for_response.
  induction 1 as [| p i p' _ IH H]; [constructor |].
  destruct i; unfold Page.step in H.
  - destruct (SWR.data (Page.swr p)) as [[data | e] |]; try discriminate.
    stepped H. now rewrite run_spec.
  - stepped H. now rewrite run_spec.
  - stepped H. now rewrite run_spec.
  - stepped H. now rewrite run_spec.
  - stepped H. now rewrite run_spec.
  - destruct (Home.createDisabled (Page.home p)); [discriminate |].
    rewrite run_spec in H.
    destruct (completion (Home.handleAddCustomer (Page.home p)))
      as [[| req k] | t] eqn:E; injection H as <-; simpl; auto.
    apply Forall_app. split; [exact IH |].
    apply handleAddCustomer_await in E as [-> _]. now repeat constructor.
  - destruct (nth_error (Page.pending p) i) as [k |]; [| discriminate].
    stepped H. rewrite run_spec. simpl. now apply remove_nth_Forall.
  - destruct (SWR.isLoading (Page.swr p)); [| discriminate].
    now stepped H.
Qed.

(** A transition appends at most one event; a revalidation is only
    asked for when a POST settles with a 2xx response. *)
Lemma step_trace p i p' :
  Page.reachable p ->
  Page.step p i = Some p' ->
  exists evs,
    Page.trace p' = Page.trace p ++ evs
    /\ ((evs = [] /\ Page.pending p' = Page.pending p)
        \/ (exists req, evs = [Fetch req] /\ i = Page.ClickCreate
              /\ List.length (Page.pending p') = S (List.length (Page.pending p)))
        \/ (exists n response, evs = [Mutate]
              /\ i = Page.PostSettled n (Resolved response) /\ ok response = true
              /\ S (List.length (Page.pending p')) = List.length (Page.pending p))
        \/ (exists n settled label err, evs = [ConsoleError label err]
              /\ i = Page.PostSettled n settled /\ post_failed settled)).
Proof.
  intros R H. pose proof (reachable_waiting R) as W.
  destruct i; unfold Page.step in H.
  - destruct (SWR.data (Page.swr p)) as [[data | e] |]; try discriminate.
    stepped H. exists []. rewrite run_spec. auto.
  - stepped H. exists []. rewrite run_spec. auto.
  - stepped H. exists []. rewrite run_spec. auto.
  - stepped H. exists []. rewrite run_spec. auto.
  - stepped H. exists []. rewrite run_spec.
    unfold Home.handleEmailChange, events, bind, read. simpl.
    destruct (falsy (Home.emailError (Page.home p))); auto.
  - destruct (Home.createDisabled (Page.home p)); [discriminate |].
    rewrite run_spec in H.
    destruct (handleAddCustomer_events (Page.home p))
      as [(req & k & E) | (s' & E)]; rewrite E in H; simpl in H;
      injection H as <-; simpl.
    + exists [Fetch req]. split; [reflexivity |]. right. left.
      exists req. rewrite length_app. simpl. repeat split. lia.
    + exists []. auto.
  - destruct (nth_error (Page.pending p) i) as [k |] eqn:E; [| discriminate].
    stepped H. rewrite run_spec. simpl.
    assert (k = Home.handleAddCustomer_settled) as ->.
    { unfold waiting_for_response in W. rewrite Forall_forall in W.
      apply W. eapply nth_error_In, E. }
    destruct (settled_cases settled (Page.home p))
      as [(response & -> & Hok & ->) | (Hf & err & ->)]; simpl.
    + exists [Mutate]. split; [reflexivity |]. right. right. left.
      exists i, response. repeat split; auto. eapply remove_nth_length, E.
    + exists [ConsoleError (js "Failed to add customer:") err].
      split; [reflexivity |]. right. right. right. eauto 8.
  - destruct (SWR.isLoading (Page.swr p)); [| discriminate].
    stepped H. exists []. simpl. rewrite app_nil_r. auto.
Qed.

End PageFacts.

(** ** Revalidations follow POSTs *)

Section TraceFacts.

Lemma mutates_app tr1 tr2 : mutates (tr1 ++ tr2) = mutates tr1 + mutates tr2.
Proof. unfold mutates. now rewrite filter_app, length_app. Qed.

Lemma fetches_app tr1 tr2 : fetches (tr1 ++ tr2) = fetches tr1 + fetches tr2.
Proof. unfold fetches. now rewrite filter_app, length_app. Qed.

(** Every revalidation in the trace has a POST of its own before it that
    is no longer waiting. *)
Lemma reachable_counts p :
  Page.reachable p ->
  mutates (Page.trace p) + List.length (Page.pending p) <= fetches (Page.trace p).
Proof.
  induction 1 as [| p i p' R IH H]; [simpl; lia |].
  destruct (step_trace i R H) as (evs & -> & C).
  rewrite mutates_app, fetches_app.
  destruct C as [[-> ->] | [(req & -> & -> & L) | [(n & r & -> & -> & _ & L)
                 | (n & settled & label & err & -> & -> & F)]]];
    unfold mutates, fetches in *; simpl in *; try lia.
  assert (List.length (Page.pending p') <= List.length (Page.pending p)); [| lia].
  unfold Page.step in H.
  destruct (nth_error (Page.pending p) n) as [k |] eqn:E; [| discriminate].
  apply Some_eq in H. subst. rewrite run_spec. simpl.
  rewrite <- (remove_nth_length _ _ E). lia.
Qed.

Lemma app_snoc_split A (l tr1 tr2 : list A) e :
  l ++ [e] = tr1 ++ tr2 ->
  tr2 = [] \/ exists tr2', l = tr1 ++ tr2'.
Proof.
  destruct tr2 as [| x tr2] using rev_ind; [auto |].
  clear IHtr2. rewrite app_assoc. intros H.
  apply app_inj_tail in H as [-> _]. eauto.
Qed.

Lemma reachable_prefix p :
  Page.reachable p ->
  forall tr1 tr2, Page.trace p = tr1 ++ tr2 -> mutates tr1 <= fetches tr1.
Proof.
  induction 1 as [| p i p' R IH H]; intros tr1 tr2 E.
  - simpl in E. symmetry in E. apply app_eq_nil in E as [-> _]. auto.
  - pose proof (reachable_counts (Page.reachable_step i R H)) as C.
    destruct (step_trace i R H) as (evs & T & D).
    assert (evs = [] \/ exists e, evs = [e]) as [-> | [e ->]].
    { destruct D as [[-> _] | [(? & -> & _) | [(? & ? & -> & _)
                    | (? & ? & ? & ? & -> & _)]]]; eauto. }
    + rewrite app_nil_r in T. rewrite T in E. eapply IH, E.
    + rewrite T in E. apply app_snoc_split in E as D'.
      destruct D' as [-> | [tr2' E']].
      * rewrite app_nil_r in E. rewrite <- E, <- T. lia.
      * eapply IH, E'.
Qed.

Lemma steps_reachable inputs : forall p p',
  Page.reachable p -> Page.steps p inputs = Some p' -> Page.reachable p'.
Proof.
  induction inputs as [| i inputs IH]; intros p p' R H; simpl in H.
  - apply Some_eq in H. now subst.
  - destruct (Page.step p i) as [q |] eqn:E; [| discriminate].
    eapply IH; [| exact H]. eapply Page.reachable_step; eauto.
Qed.

(** The scenario runs: one POST with Jane's draft, then one
    revalidation; the dialog ends closed and the table shows two rows,
    Jane's under her first and last name. *)
Example jane_scenario_runs :
  exists p,
    Page.steps Page.initial jane_scenario = Some p
    /\ Page.trace p
       = [Fetch (Home.post_request (NewCustomer.make (js "Jane") (js "Doe") (Some (js "")))
                                   (js "jane@doe.com"));
          Mutate]
    /\ Page.pending p = []
    /\ Page.home p = Home.initial
    /\ option_map table (render (Page.swr p) (Page.home p))
       = Some (Some {| count_label := js "2 Customers";
                       rows := [ {| key := js "jane@acme.com";
                                    name_cell := js "Acme";
                                    email_cell := js "jane@acme.com" |};
                                 {| key := js "jane@doe.com";
                                    name_cell := js "Jane Doe";
                                    email_cell := js "jane@doe.com" |} ] |}).
Proof. eexists. repeat split. Qed.

End TraceFacts.

(** ** Rendering a length *)

Section RenderFacts.

Lemma js_back (str : string) :
  string_of_list_ascii (List.map ascii_of_char16 (js str)) = str.
Proof.
  unfold js. rewrite map_map.
  rewrite (map_ext _ (fun a => a)) by apply ascii_N_embedding.
  rewrite map_id. apply string_of_list_ascii_of_string.
Qed.

Lemma js_latin1 (str : string) : forallb (fun c => c <? 256)%N (js str) = true.
Proof.
  unfold js. apply forallb_forall. intros c H.
  apply in_map_iff in H as (a & <- & _).
  apply N.ltb_lt, N_ascii_bounded.
Qed.

(** [String(n)] is the decimal numeral of [n]. *)
Lemma decimal_value_string_of_length n :
  decimal_value (string_of_length n) = Some n.
Proof.
  unfold decimal_value, string_of_length.
  rewrite js_latin1, js_back, NilEmpty.usu. simpl. now rewrite Unsigned.of_to.
Qed.

Lemma or_else_truthy (b y : jsstring) : b <> [] -> or_else (Some b) y = b.
Proof. now destruct b. Qed.

End RenderFacts.

(* ===================================================================== *)
(** * The properties of the specification *)
(* ===================================================================== *)

Unset Implicit Arguments.

(** C1.  For every draft form state, the Create button is enabled
    exactly when [firstName], [lastName] and [email] are non-empty and
    [email] passes [validateEmail]; when one of the four fails the button
    is disabled.  The dialog shows the button with that [disabled] value,
    and the business name plays no part in it. *)
Theorem C1_create_enabled_iff (s : Home.State) :
  (Home.createDisabled s = false <->
     NewCustomer.firstName (Home.newCustomer s) <> js ""
     /\ NewCustomer.lastName (Home.newCustomer s) <> js ""
     /\ Home.email s <> js ""
     /\ validateEmail (Home.email s) = true)
  /\ (NewCustomer.firstName (Home.newCustomer s) = js ""
      \/ NewCustomer.lastName (Home.newCustomer s) = js ""
      \/ Home.email s = js ""
      \/ validateEmail (Home.email s) = false ->
      Home.createDisabled s = true)
  /\ create_disabled (renderDialog s) = Home.createDisabled s
  /\ (forall b, Home.createDisabled (with_businessName b s) = Home.createDisabled s).
Proof.
  change (js "") with (@nil char16). unfold Home.createDisabled.
  split; [| split; [| split]].
  - rewrite !orb_false_iff, negb_false_iff, !falsy_false. tauto.
  - rewrite <- !falsy_nil, <- negb_true_iff, !orb_true_iff. tauto.
  - reflexivity.
  - reflexivity.
Qed.

Lemma C1_witness :
  Home.createDisabled jane_draft = false
  /\ Home.createDisabled bob_draft = true.
Proof.
  split.
  - apply (proj1 (C1_create_enabled_iff jane_draft)).
    repeat split; try discriminate.
  - apply (proj1 (proj2 (C1_create_enabled_iff bob_draft))).
    right. right. right. reflexivity.
Defined.

(** C2, as the code has it.  [validateEmail] accepts a string exactly
    when it has the shape [local@domain.tld]: a non-empty run without
    white space and without [@], one [@] (the only one of the string),
    and a non-empty run without white space and without [@] that has a
    full stop with non-empty text before it and after it.
    Called with an e-mail that fails the check, [handleAddCustomer] sets
    [emailError] to the message, changes nothing else, finishes without
    waiting for a request and issues no POST; [bob@example] fails. *)
Theorem C2_validateEmail_shape (email : jsstring) (s : Home.State) :
  (validateEmail email = true <-> email_shape email)
  /\ (validateEmail email = true -> count_occ char16_eq_dec email at_sign = 1)
  /\ (validateEmail (Home.email s) = false ->
      completion (Home.handleAddCustomer s) = Normal Done
      /\ Home.emailError (final (Home.handleAddCustomer s))
         = js "Please enter a valid email address"
      /\ Home.open (final (Home.handleAddCustomer s)) = Home.open s
      /\ Home.newCustomer (final (Home.handleAddCustomer s)) = Home.newCustomer s
      /\ Home.email (final (Home.handleAddCustomer s)) = Home.email s
      /\ events (Home.handleAddCustomer s) = [])
  /\ validateEmail (js "bob@example") = false.
Proof.
  split; [apply validateEmail_shape |].
  split; [intros H; now apply email_shape_single_at, validateEmail_shape |].
  split; [| reflexivity].
  intros H. rewrite (handleAddCustomer_invalid s H). repeat split.
Qed.

Lemma C2_witness :
  validateEmail (Home.email bob_draft) = false
  /\ Home.emailError (final (Home.handleAddCustomer bob_draft))
     = js "Please enter a valid email address"
  /\ events (Home.handleAddCustomer bob_draft) = []
  /\ email_shape (js "jane@doe.com").
Proof.
  assert (validateEmail (Home.email bob_draft) = false) as H by reflexivity.
  pose proof (C2_validateEmail_shape (js "jane@doe.com") bob_draft) as (S & _ & R & _).
  specialize (R H). repeat split; try apply R.
  apply S. reflexivity.
Defined.

(** C2 as it is stated fails for an address with nothing between the
    [@] and the full stop: [a@.com] is a run, an [@], and a run that
    contains a full stop with the non-empty text [com] after it, yet the
    pattern asks for at least one character before the full stop and
    rejects it. *)
Lemma C2_counterexample :
  email_shape_as_stated (js "a@.com")
  /\ validateEmail (js "a@.com") = false
  /\ ~ (forall email, validateEmail email = true <-> email_shape_as_stated email).
Proof.
  assert (email_shape_as_stated (js "a@.com")) as Hs.
  { exists (js "a"), (js ".com"). split; [reflexivity |].
    split; [split; [discriminate |] |].
    - repeat constructor; discriminate.
    - split; [split; [discriminate |] |].
      + repeat constructor; discriminate.
      + exists (js ""), (js "com"). split; [reflexivity | discriminate]. }
  split; [exact Hs |]. split; [reflexivity |].
  intros H. apply H in Hs. discriminate Hs.
Qed.

(** C3.  When the POST of [handleAddCustomer] fails, by a response that
    is not 2xx or in transport, the rest of the handler catches the
    failure and only logs it: it completes normally, its one event is the
    [console.error], the component state (the dialog flag, the draft, the
    e-mail and the e-mail error) is what it was when the response came,
    no revalidation is asked for, and the page renders as before.  On the
    page, the transition of a failed POST leaves the component state and
    the state of the hook alone and adds the log entry to the trace. *)
Theorem C3_post_failure_only_logged
    (settled : FetchOutcome Body) (s : Home.State) :
  post_failed settled ->
  completion (Home.handleAddCustomer_settled settled s) = Normal tt
  /\ (exists err,
        events (Home.handleAddCustomer_settled settled s)
        = [ConsoleError (js "Failed to add customer:") err])
  /\ final (Home.handleAddCustomer_settled settled s) = s
  /\ ~ In Mutate (events (Home.handleAddCustomer_settled settled s))
  /\ (forall w, render w (final (Home.handleAddCustomer_settled settled s))
                = render w s)
  /\ (forall p n p',
        Page.reachable p ->
        Page.step p (Page.PostSettled n settled) = Some p' ->
        Page.home p' = Page.home p
        /\ Page.swr p' = Page.swr p
        /\ exists err,
             Page.trace p'
             = Page.trace p ++ [ConsoleError (js "Failed to add customer:") err]).
Proof.
  intros F.
  assert (forall s0, exists err,
            Home.handleAddCustomer_settled settled s0 =
            (Normal tt, s0, [ConsoleError (js "Failed to add customer:") err]))
    as Hs by (intros s0; now apply settled_failed).
  destruct (Hs s) as (err & E). rewrite E. unfold completion, final, events. simpl.
  split; [reflexivity |]. split; [eauto |]. split; [reflexivity |].
  split; [intros [H | []]; discriminate |]. split; [reflexivity |].
  intros p n p' R H. unfold Page.step in H.
  destruct (nth_error (Page.pending p) n) as [k |] eqn:En; [| discriminate].
  apply Some_eq in H. subst p'. rewrite run_spec.
  pose proof (reachable_waiting R) as W. unfold waiting_for_response in W.
  rewrite Forall_forall in W. rewrite (W k (nth_error_In _ _ En)).
  destruct (Hs (Page.home (Page.resume n p))) as (err' & ->).
  unfold final, events. simpl. eauto.
Qed.

Lemma C3_witness :
  post_failed (Resolved server_error_response)
  /\ final (Home.handleAddCustomer_settled (Resolved server_error_response) jane_draft)
     = jane_draft
  /\ events (Home.handleAddCustomer_settled (Resolved server_error_response) jane_draft)
     = [ConsoleError (js "Failed to add customer:")
                     (ThrownBody (ApiErrorBody server_error))].
Proof.
  assert (post_failed (Resolved server_error_response)) as F by reflexivity.
  split; [exact F |].
  split.
  - apply (C3_post_failure_only_logged (Resolved server_error_response) jane_draft F).
  - reflexivity.
Defined.

(** C4.  When the POST of [handleAddCustomer] gets a 2xx response, the
    rest of the handler asks for a revalidation ([mutate]) and closes the
    dialog with the draft cleared.  The part of the handler that runs
    before the response asks for no revalidation, the part that runs
    after it asks for one only when the response is 2xx; on the page the
    transition of a 2xx response closes the dialog, puts one more GET in
    flight and leaves the data of the hook as it is; a revalidation enters the trace only in the transition that settles a
    POST with a 2xx response, and at every point of the trace there have
    been no more revalidations than POSTs.  No transition but a GET of
    the hook that settles with a value the fetcher returns changes the
    list on display: the handler never inserts the new record itself. *)
Theorem C4_success_revalidates_after_response :
  (forall response s,
      ok response = true ->
      completion (Home.handleAddCustomer_settled (Resolved response) s) = Normal tt
      /\ events (Home.handleAddCustomer_settled (Resolved response) s) = [Mutate]
      /\ closed_and_blank (final (Home.handleAddCustomer_settled (Resolved response) s)))
  /\ (forall p n response p',
        Page.reachable p ->
        ok response = true ->
        Page.step p (Page.PostSettled n (Resolved response)) = Some p' ->
        closed_and_blank (Page.home p')
        /\ Page.trace p' = Page.trace p ++ [Mutate]
        /\ SWR.inflight (Page.swr p') = S (SWR.inflight (Page.swr p))
        /\ SWR.data (Page.swr p') = SWR.data (Page.swr p))
  /\ (forall s, ~ In Mutate (events (Home.handleAddCustomer s)))
  /\ (forall settled s,
        In Mutate (events (Home.handleAddCustomer_settled settled s)) ->
        exists response, settled = Resolved response /\ ok response = true)
  /\ (forall p i p',
        Page.reachable p ->
        Page.step p i = Some p' ->
        exists evs,
          Page.trace p' = Page.trace p ++ evs
          /\ (In Mutate evs ->
              exists n response,
                i = Page.PostSettled n (Resolved response) /\ ok response = true))
  /\ (forall p tr1 tr2,
        Page.reachable p ->
        Page.trace p = tr1 ++ tr2 ->
        mutates tr1 <= fetches tr1)
  /\ (forall p i p',
        Page.step p i = Some p' ->
        Page.displayed p' <> Page.displayed p ->
        exists settled body,
          i = Page.GetSettled settled
          /\ fetcher (fun _ => settled) customers_url = Normal body
          /\ SWR.data (Page.swr p') = Some body).
Proof.
  split; [| split; [| split; [| split; [| split; [| split]]]]].
  - intros response s H. rewrite (settled_ok response s H).
    repeat split.
  - intros p n response p' R Hok H. unfold Page.step in H.
    destruct (nth_error (Page.pending p) n) as [k |] eqn:En; [| discriminate].
    apply Some_eq in H. subst p'. rewrite run_spec.
    pose proof (reachable_waiting R) as W. unfold waiting_for_response in W.
    rewrite Forall_forall in W. rewrite (W k (nth_error_In _ _ En)).
    rewrite (settled_ok response _ Hok). repeat split.
  - intros s.
    destruct (handleAddCustomer_events s) as [(req & k & ->) | (s' & ->)];
      unfold events; simpl; intros H; [destruct H as [H | []]; discriminate | exact H].
  - intros settled s.
    destruct (settled_cases settled s)
      as [(response & -> & Hok & _) | (_ & err & ->)]; [eauto |].
    unfold events. simpl. intros [H | []]. discriminate.
  - intros p i p' R H.
    destruct (step_trace i R H) as (evs & T & C). exists evs. split; [exact T |].
    destruct C as [[-> _] | [(req & -> & _) | [(n & r & -> & -> & Hok & _)
                   | (n & settled & label & err & -> & _)]]].
    + intros [].
    + intros [E | []]. discriminate.
    + eauto.
    + intros [E | []]. discriminate.
  - intros p tr1 tr2 R E. exact (reachable_prefix R tr1 tr2 E).
  - intros p i p' H D.
    destruct (step_data p i H) as [E | C]; [| exact C].
    exfalso. apply D. unfold Page.displayed. now rewrite E.
Qed.

Lemma C4_witness :
  ok created_response = true
  /\ events (Home.handleAddCustomer_settled (Resolved created_response) jane_draft)
     = [Mutate]
  /\ closed_and_blank
       (final (Home.handleAddCustomer_settled (Resolved created_response) jane_draft)).
Proof.
  assert (ok created_response = true) as H by reflexivity.
  split; [exact H |].
  apply (proj1 C4_success_revalidates_after_response created_response jane_draft H).
Defined.

(** C5.  Closing the dialog always leaves the dialog flag false and
    [firstName], [lastName], [businessName], [email] and [emailError]
    empty: [handleClose] does so from every state, the Cancel button and
    the [onClose] of the dialog run it, and so does the rest of
    [handleAddCustomer] after a 2xx response.  Opening the dialog again
    from such a state shows four blank fields. *)
Theorem C5_close_resets_draft (s : Home.State) (p : Page.State)
    (response : Response Body) :
  (completion (Home.handleClose s) = Normal tt
   /\ closed_and_blank (final (Home.handleClose s)))
  /\ (exists p', Page.step p Page.ClickCancel = Some p'
                 /\ closed_and_blank (Page.home p'))
  /\ (exists p', Page.step p Page.DialogOnClose = Some p'
                 /\ closed_and_blank (Page.home p'))
  /\ (ok response = true ->
      closed_and_blank (final (Home.handleAddCustomer_settled (Resolved response) s)))
  /\ (forall s', closed_and_blank s' ->
        Home.open (final (Home.handleClickOpen s')) = true
        /\ blank_fields (renderDialog (final (Home.handleClickOpen s')))).
Proof.
  split; [| split; [| split; [| split]]].
  - rewrite handleClose_run. repeat split.
  - eexists. split; [reflexivity |]. rewrite run_spec. simpl. repeat split.
  - eexists. split; [reflexivity |]. rewrite run_spec. simpl. repeat split.
  - intros H. rewrite (settled_ok response s H). repeat split.
  - intros s' (_ & Hf & Hl & Hb & He & _).
    rewrite handleClickOpen_run. unfold final, blank_fields. simpl.
    rewrite Hf, Hl, Hb, He. repeat split.
Qed.

Lemma C5_witness :
  ok created_response = true
  /\ closed_and_blank
       (final (Home.handleAddCustomer_settled (Resolved created_response) jane_draft))
  /\ blank_fields
       (renderDialog
          (final (Home.handleClickOpen (final (Home.handleClose jane_draft))))).
Proof.
  assert (ok created_response = true) as H by reflexivity.
  pose proof (C5_close_resets_draft jane_draft Page.initial created_response)
    as ((_ & C) & _ & _ & S & O).
  split; [exact H |]. split; [exact (S H) |].
  apply (O _ C).
Defined.

(** C6.  When the GET settles with a non-2xx response whose JSON body
    is [{code: "500", message: "Server error"}] and the hook holds no
    data, the fetcher throws that parsed body, and the page then renders
    the line [Error: Server error] and no table.  A table is rendered
    only when the hook holds data. *)
Theorem C6_get_error_rendered (w : SWR.State) (s : Home.State) :
  SWR.data w = None ->
  fetcher (fun _ => Resolved server_error_response) customers_url
    = Abrupt (ThrownBody (ApiErrorBody server_error))
  /\ (exists v,
        render (SWR.settle
                  (fetcher (fun _ => Resolved server_error_response) customers_url) w) s
        = Some v
        /\ error_line v = Some (js "Error: Server error")
        /\ table v = None)
  /\ (forall p,
        Page.swr p = w -> Page.home p = s -> SWR.isLoading w = true ->
        exists p' v,
          Page.step p (Page.GetSettled (Resolved server_error_response)) = Some p'
          /\ render (Page.swr p') (Page.home p') = Some v
          /\ error_line v = Some (js "Error: Server error")
          /\ table v = None)
  /\ (forall w' s' v t,
        render w' s' = Some v -> table v = Some t ->
        exists data, SWR.data w' = Some (CustomersBody data)
                     /\ t = renderTable data).
Proof.
  intros D. split; [reflexivity |]. split; [| split].
  - unfold render. simpl. rewrite D. eexists. split; [reflexivity |]. split; reflexivity.
  - intros p Ew Es L. unfold Page.step. rewrite Ew, L.
    eexists. eexists. split; [reflexivity |]. unfold render. simpl. rewrite D.
    split; [reflexivity |]. split; reflexivity.
  - intros w' s' v t R T. unfold render in R.
    destruct (SWR.data w') as [[data | e] |]; try discriminate;
      apply Some_eq in R; subst v; simpl in T; [| discriminate].
    apply Some_eq in T. eauto.
Qed.

Lemma C6_witness :
  SWR.data SWR.initial = None
  /\ exists p' v,
       Page.step Page.initial (Page.GetSettled (Resolved server_error_response))
       = Some p'
       /\ render (Page.swr p') (Page.home p') = Some v
       /\ error_line v = Some (js "Error: Server error")
       /\ table v = None.
Proof.
  assert (SWR.data SWR.initial = None) as D by reflexivity.
  split; [exact D |].
  apply (proj1 (proj2 (proj2 (C6_get_error_rendered SWR.initial Home.initial D)))
               Page.initial); reflexivity.
Defined.

(** C7, as the code has it.  For every customer of the fetched list the
    name cell is the business name when there is one and it is not the
    empty string ([Acme] whatever the first and the last name), and the
    first and the last name joined by one space when there is no business
    name. *)
Theorem C7_name_cell (c : Customer.t) :
  (forall b, Customer.businessName c = Some b -> b <> js "" -> nameCell c = b)
  /\ (Customer.businessName c = None ->
      nameCell c = Customer.firstName c ++ js " " ++ Customer.lastName c)
  /\ (forall first last email,
        nameCell (Customer.make first last email (Some (js "Acme"))) = js "Acme")
  /\ (forall data : Customers,
        List.map name_cell (rows (renderTable data)) = List.map nameCell data).
Proof.
  split; [| split; [| split]].
  - intros b E Hb. unfold nameCell. rewrite E. now apply or_else_truthy.
  - intros E. unfold nameCell. now rewrite E.
  - reflexivity.
  - intros data. unfold renderTable. simpl. rewrite map_map. reflexivity.
Qed.

Lemma C7_witness :
  Customer.businessName acme = Some (js "Acme")
  /\ js "Acme" <> js ""
  /\ nameCell acme = js "Acme"
  /\ nameCell jane = js "Jane Doe".
Proof.
  assert (Customer.businessName acme = Some (js "Acme")) as E by reflexivity.
  assert (js "Acme" <> js "") as N by discriminate.
  split; [exact E |]. split; [exact N |]. split.
  - apply (proj1 (C7_name_cell acme) (js "Acme") E N).
  - apply (proj1 (proj2 (C7_name_cell jane))). reflexivity.
Defined.

(** C7 as it is stated fails for a business name that is present and
    empty: the cell then shows the first and the last name, not the
    business name. *)
Lemma C7_counterexample :
  Customer.businessName jane_blank = Some (js "")
  /\ nameCell jane_blank = js "Jane Doe"
  /\ nameCell jane_blank <> js ""
  /\ ~ (forall c b, Customer.businessName c = Some b -> nameCell c = b).
Proof.
  split; [reflexivity |]. split; [reflexivity |]. split; [discriminate |].
  intros H. specialize (H jane_blank (js "") eq_refl). discriminate.
Qed.

(** C8.  For every fetched array the count in the header is the decimal
    numeral of the array's length, a space, and [Customer] when the
    length is 1, [Customers] otherwise: a 3-element array reads
    [3 Customers], a 1-element array [1 Customer]. *)
Theorem C8_count_label (data : Customers) :
  count_label (renderTable data) = countLabel data
  /\ (exists digits,
        decimal_value digits = Some (List.length data)
        /\ (List.length data = 1 -> countLabel data = digits ++ js " Customer")
        /\ (List.length data <> 1 -> countLabel data = digits ++ js " Customers"))
  /\ (forall a b c, countLabel [a; b; c] = js "3 Customers")
  /\ (forall a, countLabel [a] = js "1 Customer").
Proof.
  split; [reflexivity |]. split; [| split; reflexivity].
  exists (string_of_length (List.length data)).
  split; [apply decimal_value_string_of_length |].
  unfold countLabel. split; intros H.
  - now rewrite H.
  - apply Nat.eqb_neq in H. now rewrite H.
Qed.

Lemma C8_witness :
  List.length [acme] = 1
  /\ List.length [acme; jane; jane_blank] <> 1
  /\ countLabel [acme] = js "1 Customer"
  /\ countLabel [acme; jane; jane_blank] = js "3 Customers"
  /\ countLabel [] = js "0 Customers".
Proof.
  split; [reflexivity |]. split; [discriminate |].
  split; [apply (proj2 (proj2 (proj2 (C8_count_label [acme])))) |].
  split; [apply (proj1 (proj2 (proj2 (C8_count_label [acme])))) |].
  reflexivity.
Defined.

(** C9.  A customer whose business name is present and empty is
    rendered as a customer without business name: the name cell is the
    first and the last name joined by a space, and the whole row is the
    same. *)
Theorem C9_empty_business_name (first last email : jsstring) :
  nameCell (Customer.make first last email (Some (js "")))
    = first ++ js " " ++ last
  /\ nameCell (Customer.make first last email (Some (js "")))
     = nameCell (Customer.make first last email None)
  /\ renderRow (Customer.make first last email (Some (js "")))
     = renderRow (Customer.make first last email None).
Proof. repeat split. Qed.

(** C10.  The fetcher awaits [response.json()] before it looks at
    [response.ok].  So for every non-2xx response whose body parses, what
    it throws is the parsed body itself, and for every response whose
    body does not parse, 2xx or not, what it throws is the error of the
    parse, not a body. *)
Theorem C10_fetcher_json_before_ok
    (B : Type) (fetch : jsstring -> FetchOutcome B) (url : jsstring)
    (response : Response B) :
  fetch url = Resolved response ->
  (forall body, ok response = false -> json response = JsonOk body ->
                fetcher fetch url = Abrupt (ThrownBody body))
  /\ (forall e, json response = JsonFail e ->
                fetcher fetch url = Abrupt (ThrownError e))
  /\ (forall body, ok response = true -> json response = JsonOk body ->
                   fetcher fetch url = Normal body).
Proof.
  intros F. unfold fetcher. rewrite F. repeat split.
  - intros body O J. now rewrite J, O.
  - intros e J. now rewrite J.
  - intros body O J. now rewrite J, O.
Qed.

Lemma C10_witness :
  fetcher (fun _ => Resolved server_error_response) customers_url
    = Abrupt (ThrownBody (ApiErrorBody server_error))
  /\ fetcher (fun _ => Resolved bad_gateway_response) customers_url
     = Abrupt (ThrownError {| error_name := js "SyntaxError";
                              error_message := js "Unexpected token" |}).
Proof.
  split.
  - apply (proj1 (C10_fetcher_json_before_ok Body
                    (fun _ => Resolved server_error_response) customers_url
                    server_error_response eq_refl));
      reflexivity.
  - apply (proj1 (proj2 (C10_fetcher_json_before_ok Body
                    (fun _ => Resolved bad_gateway_response) customers_url
                    bad_gateway_response eq_refl)));
      reflexivity.
Defined.

(* ===================================================================== *)
(** * Further properties of the code *)
(* ===================================================================== *)

(** ** Invariants of the component state *)

Section HomeInvariants.

Lemma createDisabled_false s :
  Home.createDisabled s = false ->
  NewCustomer.firstName (Home.newCustomer s) <> []
  /\ NewCustomer.lastName (Home.newCustomer s) <> []
  /\ Home.email s <> []
  /\ validateEmail (Home.email s) = true.
Proof.
  unfold Home.createDisabled.
  rewrite !orb_false_iff, negb_false_iff, !falsy_false. tauto.
Qed.

(** A click on the enabled Create button issues the POST of the draft
    and changes nothing else. *)
Lemma step_create p p' :
  Page.step p Page.ClickCreate = Some p' ->
  Home.createDisabled (Page.home p) = false
  /\ p' = {| Page.home := Page.home p;
             Page.swr := Page.swr p;
             Page.pending := Page.pending p ++ [Home.handleAddCustomer_settled];
             Page.trace :=
               Page.trace p ++
               [Fetch (Home.post_request (Home.newCustomer (Page.home p))
                                         (Home.email (Page.home p)))] |}.
Proof.
  unfold Page.step. destruct (Home.createDisabled (Page.home p)) eqn:D; [discriminate |].
  destruct (createDisabled_false _ D) as (_ & _ & _ & V).
  rewrite run_spec, (handleAddCustomer_valid _ V). unfold completion, final, events. simpl.
  intros H. apply Some_eq in H. subst p'. split; reflexivity.
Qed.

(** A property of the component state that the initial state has and
    every handler keeps holds on every page. *)
Lemma reachable_home_invariant (P : Home.State -> Prop) :
  P Home.initial ->
  (forall s, P s -> P (final (Home.handleClickOpen s))) ->
  (forall s name v, P s -> P (final (Home.handleInputChange name v s))) ->
  (forall s v, P s -> P (final (Home.handleEmailChange v s))) ->
  forall p, Page.reachable p -> P (Page.home p).
Proof.
  intros P0 Popen Pfield Pemail p R.
  induction R as [| p i p' R IH H]; [exact P0 |].
  pose proof (reachable_waiting R) as W.
  destruct i; unfold Page.step in H.
  - destruct (SWR.data (Page.swr p)) as [[data | e] |]; try discriminate.
    apply Some_eq in H. subst p'. rewrite run_spec. apply Popen, IH.
  - apply Some_eq in H. subst p'. rewrite run_spec. exact P0.
  - apply Some_eq in H. subst p'. rewrite run_spec. exact P0.
  - apply Some_eq in H. subst p'. rewrite run_spec. apply Pfield, IH.
  - apply Some_eq in H. subst p'. rewrite run_spec. apply Pemail, IH.
  - fold (Page.step p Page.ClickCreate) in H.
    apply step_create in H as [_ ->]. exact IH.
  - destruct (nth_error (Page.pending p) i) as [k |] eqn:E; [| discriminate].
    apply Some_eq in H. subst p'. rewrite run_spec. simpl.
    unfold waiting_for_response in W. rewrite Forall_forall in W.
    rewrite (W k (nth_error_In _ _ E)).
    destruct (settled_cases settled (Page.home p))
      as [(response & _ & _ & ->) | (_ & err & ->)]; [exact P0 | exact IH].
  - destruct (SWR.isLoading (Page.swr p)); [| discriminate].
    apply Some_eq in H. subst p'. exact IH.
Qed.

Lemma reachable_emailError p :
  Page.reachable p -> Home.emailError (Page.home p) = [].
Proof.
  apply (reachable_home_invariant (fun s => Home.emailError s = [])); auto.
  intros s v _. unfold Home.handleEmailChange, final, bind, read. simpl.
  destruct (Home.emailError s); reflexivity.
Qed.

Lemma reachable_businessName p :
  Page.reachable p -> NewCustomer.businessName (Home.newCustomer (Page.home p)) <> None.
Proof.
  apply (reachable_home_invariant
           (fun s => NewCustomer.businessName (Home.newCustomer s) <> None)).
  - discriminate.
  - auto.
  - intros s [| |] v H; simpl; [exact H | exact H | discriminate].
  - intros s v H. unfold Home.handleEmailChange, final, bind, read. simpl.
    now destruct (falsy (Home.emailError s)).
Qed.

End HomeInvariants.

(** ** Editing the draft *)

(** X1.  Typing a value in one of the three text fields of
    [handleInputChange] makes the dialog show that value in that field;
    the two other fields, the e-mail field and the dialog flag stay as
    they were, and nothing leaves the component. *)
Theorem X1_field_change_shown (name : FieldName) (v : jsstring) (s : Home.State) :
  completion (Home.handleInputChange name v s) = Normal tt
  /\ events (Home.handleInputChange name v s) = []
  /\ shown name (renderDialog (final (Home.handleInputChange name v s))) = v
  /\ (forall other,
        other <> name ->
        shown other (renderDialog (final (Home.handleInputChange name v s)))
        = shown other (renderDialog s))
  /\ email_field (renderDialog (final (Home.handleInputChange name v s)))
     = email_field (renderDialog s)
  /\ dialog_open (renderDialog (final (Home.handleInputChange name v s)))
     = dialog_open (renderDialog s).
Proof.
  split; [reflexivity |]. split; [reflexivity |]. split; [| split; [| split]].
  - destruct name; try reflexivity. now destruct v.
  - intros other N. destruct name, other; try reflexivity; now destruct N.
  - reflexivity.
  - reflexivity.
Qed.

Lemma X1_witness :
  firstNameField <> lastNameField
  /\ shown lastNameField
       (renderDialog (final (Home.handleInputChange lastNameField (js "Roe") jane_draft)))
     = js "Roe"
  /\ shown firstNameField
       (renderDialog (final (Home.handleInputChange lastNameField (js "Roe") jane_draft)))
     = js "Jane".
Proof.
  assert (firstNameField <> lastNameField) as N by discriminate.
  pose proof (X1_field_change_shown lastNameField (js "Roe") jane_draft)
    as (_ & _ & S & O & _).
  split; [exact N |]. split; [exact S |].
  rewrite (O firstNameField N). reflexivity.
Defined.

(** X2.  Edits compose as a user expects: of two values typed in the
    same field the later one stays, edits of different fields can be made
    in either order, and so can an edit of a text field and an edit of
    the e-mail field. *)
Theorem X2_edits_compose (s : Home.State) (n1 n2 : FieldName) (v1 v2 e : jsstring) :
  final (Home.handleInputChange n1 v2 (final (Home.handleInputChange n1 v1 s)))
  = final (Home.handleInputChange n1 v2 s)
  /\ (n1 <> n2 ->
      final (Home.handleInputChange n2 v2 (final (Home.handleInputChange n1 v1 s)))
      = final (Home.handleInputChange n1 v1 (final (Home.handleInputChange n2 v2 s))))
  /\ final (Home.handleEmailChange e (final (Home.handleInputChange n1 v1 s)))
     = final (Home.handleInputChange n1 v1 (final (Home.handleEmailChange e s)))
  /\ final (Home.handleEmailChange v2 (final (Home.handleEmailChange v1 s)))
     = final (Home.handleEmailChange v2 s).
Proof.
  split; [| split; [| split]].
  - now destruct n1.
  - intros N. destruct n1, n2; try reflexivity; now destruct N.
  - unfold Home.handleEmailChange, final, bind, read. simpl.
    now destruct (Home.emailError s).
  - unfold Home.handleEmailChange, final, bind, read. simpl.
    now destruct (Home.emailError s).
Qed.

Lemma X2_witness :
  firstNameField <> businessNameField
  /\ final (Home.handleInputChange businessNameField (js "Acme")
              (final (Home.handleInputChange firstNameField (js "Jo") jane_draft)))
     = final (Home.handleInputChange firstNameField (js "Jo")
                (final (Home.handleInputChange businessNameField (js "Acme") jane_draft))).
Proof.
  assert (firstNameField <> businessNameField) as N by discriminate.
  split; [exact N |].
  apply (proj1 (proj2 (X2_edits_compose jane_draft firstNameField businessNameField
                         (js "Jo") (js "Acme") (js ""))) N).
Defined.

(** X3.  Typing in the e-mail field stores the value and always leaves
    [emailError] empty, whatever it was; the draft and the dialog flag
    stay.  The field then shows the value, is flagged exactly when the
    value is empty, and its helper text is [Required] for the empty value
    and nothing otherwise. *)
Theorem X3_email_change_clears_error (v : jsstring) (s : Home.State) :
  completion (Home.handleEmailChange v s) = Normal tt
  /\ events (Home.handleEmailChange v s) = []
  /\ Home.email (final (Home.handleEmailChange v s)) = v
  /\ Home.emailError (final (Home.handleEmailChange v s)) = js ""
  /\ Home.newCustomer (final (Home.handleEmailChange v s)) = Home.newCustomer s
  /\ Home.open (final (Home.handleEmailChange v s)) = Home.open s
  /\ value (email_field (renderDialog (final (Home.handleEmailChange v s)))) = v
  /\ (error (email_field (renderDialog (final (Home.handleEmailChange v s)))) = true
      <-> v = js "")
  /\ helperText (email_field (renderDialog (final (Home.handleEmailChange v s))))
     = (if falsy v then js "Required" else js "").
Proof.
  unfold Home.handleEmailChange, completion, final, events, bind, read. simpl.
  destruct (Home.emailError s) eqn:E; simpl; rewrite ?E; simpl;
    repeat split; try (intros H; now apply falsy_nil in H);
    try (intros ->; reflexivity).
Qed.

(** X4.  The life of the format error.  When [handleAddCustomer] runs
    on an e-mail that fails the check, the e-mail field is flagged and
    shows the message, and Create is disabled; an edit of a text field
    keeps the message; the next edit of the e-mail field removes it. *)
Theorem X4_format_error_life (s : Home.State) :
  validateEmail (Home.email s) = false ->
  error (email_field (renderDialog (final (Home.handleAddCustomer s)))) = true
  /\ helperText (email_field (renderDialog (final (Home.handleAddCustomer s))))
     = js "Please enter a valid email address"
  /\ create_disabled (renderDialog (final (Home.handleAddCustomer s))) = true
  /\ (forall name v,
        helperText
          (email_field
             (renderDialog
                (final (Home.handleInputChange name v (final (Home.handleAddCustomer s))))))
        = js "Please enter a valid email address")
  /\ (forall v,
        helperText
          (email_field
             (renderDialog
                (final (Home.handleEmailChange v (final (Home.handleAddCustomer s))))))
        = (if falsy v then js "Required" else js "")).
Proof.
  intros H. rewrite (handleAddCustomer_invalid s H). unfold final. simpl.
  split; [reflexivity |]. split; [reflexivity |]. split; [| split].
  - unfold Home.createDisabled. simpl. rewrite H. simpl. now rewrite !orb_true_r.
  - reflexivity.
  - reflexivity.
Qed.

Lemma X4_witness :
  validateEmail (Home.email bob_draft) = false
  /\ helperText (email_field (renderDialog (final (Home.handleAddCustomer bob_draft))))
     = js "Please enter a valid email address"
  /\ helperText
       (email_field
          (renderDialog
             (final (Home.handleEmailChange (js "bob@example.com")
                       (final (Home.handleAddCustomer bob_draft))))))
     = js "".
Proof.
  assert (validateEmail (Home.email bob_draft) = false) as H by reflexivity.
  pose proof (X4_format_error_life bob_draft H) as (_ & M & _ & _ & C).
  split; [exact H |]. split; [exact M |].
  rewrite (C (js "bob@example.com")). reflexivity.
Defined.

(** ** Invariants of the page *)

Section PageInvariants.

Lemma errors_app tr1 tr2 : errors (tr1 ++ tr2) = errors tr1 + errors tr2.
Proof. unfold errors. now rewrite filter_app, length_app. Qed.

Lemma step_create_enabled p :
  Home.createDisabled (Page.home p) = false ->
  Page.step p Page.ClickCreate =
  Some {| Page.home := Page.home p;
          Page.swr := Page.swr p;
          Page.pending := Page.pending p ++ [Home.handleAddCustomer_settled];
          Page.trace :=
            Page.trace p ++
            [Fetch (Home.post_request (Home.newCustomer (Page.home p))
                                      (Home.email (Page.home p)))] |}.
Proof.
  intros D. destruct (createDisabled_false _ D) as (_ & _ & _ & V).
  unfold Page.step. rewrite D, run_spec, (handleAddCustomer_valid _ V).
  reflexivity.
Qed.

Lemma post_request_well_formed s :
  Home.createDisabled s = false ->
  NewCustomer.businessName (Home.newCustomer s) <> None ->
  well_formed_post (Home.post_request (Home.newCustomer s) (Home.email s)).
Proof.
  intros D Hb. destruct (createDisabled_false _ D) as (Hf & Hl & _ & V).
  unfold well_formed_post. simpl. repeat split; auto.
  now apply validateEmail_shape.
Qed.

End PageInvariants.

(** X5.  On every page the user can reach, [emailError] is empty: the
    Create button is disabled as long as the e-mail fails the check, so
    the branch of [handleAddCustomer] that sets the message never runs
    and a click on Create always issues the POST.  The e-mail field
    therefore never shows the format message; an e-mail that is not
    empty and fails the check is shown without flag and without helper
    text, with Create disabled. *)
Theorem X5_format_error_unreachable (p : Page.State) :
  Page.reachable p ->
  Home.emailError (Page.home p) = js ""
  /\ helperText (email_field (renderDialog (Page.home p)))
     <> js "Please enter a valid email address"
  /\ (Home.email (Page.home p) <> js "" ->
      validateEmail (Home.email (Page.home p)) = false ->
      error (email_field (renderDialog (Page.home p))) = false
      /\ helperText (email_field (renderDialog (Page.home p))) = js ""
      /\ create_disabled (renderDialog (Page.home p)) = true)
  /\ (forall p',
        Page.step p Page.ClickCreate = Some p' ->
        Page.home p' = Page.home p
        /\ Page.trace p'
           = Page.trace p ++
             [Fetch (Home.post_request (Home.newCustomer (Page.home p))
                                       (Home.email (Page.home p)))]).
Proof.
  intros R. pose proof (reachable_emailError p R) as E.
  split; [exact E |]. simpl. rewrite E. simpl.
  split; [| split].
  - destruct (falsy (Home.email (Page.home p))); discriminate.
  - intros Hne V. apply falsy_false in Hne. rewrite Hne.
    repeat split. unfold Home.createDisabled. rewrite V. simpl.
    now rewrite !orb_true_r.
  - intros p' H. apply step_create in H as [_ ->]. split; reflexivity.
Qed.

Lemma X5_witness :
  exists p,
    Page.steps Page.initial bob_typing = Some p
    /\ Home.email (Page.home p) = js "bob@example"
    /\ validateEmail (Home.email (Page.home p)) = false
    /\ helperText (email_field (renderDialog (Page.home p))) = js ""
    /\ create_disabled (renderDialog (Page.home p)) = true.
Proof.
  eexists. split; [reflexivity |].
  match goal with
  | |- Home.email (Page.home ?q) = _ /\ _ =>
      pose proof (@steps_reachable bob_typing Page.initial q
                    Page.reachable_initial eq_refl) as R;
      pose proof (X5_format_error_unreachable q R) as (_ & _ & C & _)
  end.
  split; [reflexivity |]. split; [reflexivity |].
  apply C; [discriminate | reflexivity].
Defined.

(** X6.  Every POST in the trace of a page is well formed: it goes to
    the customers endpoint with method POST and the JSON content type,
    and its body has a non-empty first name, a non-empty last name, an
    e-mail of the accepted shape and a [businessName] property. *)
Theorem X6_posts_well_formed (p : Page.State) (req : Request) :
  Page.reachable p ->
  In (Fetch req) (Page.trace p) ->
  well_formed_post req.
Proof.
  intros R. induction R as [| p i p' R IH H]; [intros [] |].
  destruct (step_trace i R H) as (evs & T & C). rewrite T. intros Hin.
  apply in_app_or in Hin as [Hin | Hin]; [now apply IH |].
  destruct C as [[-> _] | [(req' & -> & -> & _) | [(n & r & -> & _)
                 | (n & settled & label & err & -> & _)]]].
  - destruct Hin.
  - apply step_create in H as [D ->]. simpl in T.
    apply app_inv_head in T. injection T as <-.
    destruct Hin as [Hin | []]. injection Hin as <-.
    apply post_request_well_formed; [exact D | now apply reachable_businessName].
  - destruct Hin as [Hin | []]. discriminate.
  - destruct Hin as [Hin | []]. discriminate.
Qed.

Lemma X6_witness :
  exists p,
    Page.steps Page.initial jane_scenario = Some p
    /\ In (Fetch (Home.post_request
                    (NewCustomer.make (js "Jane") (js "Doe") (Some (js "")))
                    (js "jane@doe.com")))
          (Page.trace p)
    /\ well_formed_post
         (Home.post_request (NewCustomer.make (js "Jane") (js "Doe") (Some (js "")))
                            (js "jane@doe.com")).
Proof.
  eexists. split; [reflexivity |].
  match goal with
  | |- In ?e (Page.trace ?q) /\ _ =>
      pose proof (@steps_reachable jane_scenario Page.initial q
                    Page.reachable_initial eq_refl) as R;
      assert (In e (Page.trace q)) as I by (left; reflexivity)
  end.
  split; [exact I |].
  exact (X6_posts_well_formed _ _ R I).
Defined.

(** X7.  Every POST is accounted for once: on every page the number of
    POSTs issued is the number of POSTs still waiting for their response
    plus the number of revalidations asked for plus the number of
    failures logged.  No response is handled twice and none is lost. *)
Theorem X7_posts_accounted (p : Page.State) :
  Page.reachable p ->
  fetches (Page.trace p)
  = List.length (Page.pending p) + mutates (Page.trace p) + errors (Page.trace p).
Proof.
  induction 1 as [| p i p' R IH H]; [reflexivity |].
  destruct (step_trace i R H) as (evs & T & C). rewrite T.
  rewrite mutates_app, fetches_app, errors_app.
  destruct C as [[-> ->] | [(req & -> & -> & L) | [(n & r & -> & -> & _ & L)
                 | (n & settled & label & err & -> & -> & F)]]];
    unfold mutates, fetches, errors in *; simpl in *; try lia.
  assert (S (List.length (Page.pending p')) = List.length (Page.pending p)); [| lia].
  unfold Page.step in H.
  destruct (nth_error (Page.pending p) n) as [k |] eqn:E; [| discriminate].
  apply Some_eq in H. subst p'. rewrite run_spec. simpl.
  apply (remove_nth_length _ _ E).
Qed.

Lemma X7_witness :
  exists p,
    Page.steps Page.initial three_clicks = Some p
    /\ fetches (Page.trace p) = 3
    /\ List.length (Page.pending p) + mutates (Page.trace p) + errors (Page.trace p) = 3.
Proof.
  eexists. split; [reflexivity |].
  match goal with
  | |- fetches (Page.trace ?q) = _ /\ _ =>
      pose proof (@steps_reachable three_clicks Page.initial q
                    Page.reachable_initial eq_refl) as R;
      pose proof (X7_posts_accounted q R) as A
  end.
  split; [reflexivity |]. rewrite <- A. reflexivity.
Defined.

(** X8.  Nothing guards against a second submission.  A click on the
    enabled Create button leaves the component state as it is (the
    dialog open, the draft in place, the button enabled), so a second
    click is possible and issues the same POST again; both wait for
    their response. *)
Theorem X8_double_submit (p : Page.State) :
  Home.createDisabled (Page.home p) = false ->
  exists p1 p2,
    Page.step p Page.ClickCreate = Some p1
    /\ Page.step p1 Page.ClickCreate = Some p2
    /\ Page.home p1 = Page.home p
    /\ Page.home p2 = Page.home p
    /\ Page.swr p2 = Page.swr p
    /\ Page.trace p2
       = Page.trace p ++
         [Fetch (Home.post_request (Home.newCustomer (Page.home p)) (Home.email (Page.home p)));
          Fetch (Home.post_request (Home.newCustomer (Page.home p)) (Home.email (Page.home p)))]
    /\ Page.pending p2
       = Page.pending p ++ [Home.handleAddCustomer_settled; Home.handleAddCustomer_settled].
Proof.
  intros D. eexists. eexists.
  split; [apply (step_create_enabled p D) |].
  split; [apply step_create_enabled; exact D |].
  simpl. rewrite <- !app_assoc. repeat split.
Qed.

Lemma X8_witness :
  Home.createDisabled jane_draft = false
  /\ exists p1 p2,
       Page.step {| Page.home := jane_draft; Page.swr := SWR.initial;
                    Page.pending := []; Page.trace := [] |} Page.ClickCreate = Some p1
       /\ Page.step p1 Page.ClickCreate = Some p2
       /\ fetches (Page.trace p2) = 2.
Proof.
  assert (Home.createDisabled jane_draft = false) as D by reflexivity.
  split; [exact D |].
  destruct (X8_double_submit
              {| Page.home := jane_draft; Page.swr := SWR.initial;
                 Page.pending := []; Page.trace := [] |} D)
    as (p1 & p2 & S1 & S2 & _ & _ & _ & T & _).
  exists p1, p2. split; [exact S1 |]. split; [exact S2 |].
  rewrite T. reflexivity.
Defined.

(** ** The fetcher, the pattern and the table *)

(** X9.  The three ways the fetcher ends, each traced back to its
    cause.  It returns a body exactly when the fetch resolved with a 2xx
    response whose body parsed to it; it throws a body exactly when the
    fetch resolved with a response that is not 2xx and whose body parsed
    to it; it throws an [Error] object exactly when the fetch was
    rejected with it or the body of the response, 2xx or not, did not
    parse. *)
Theorem X9_fetcher_outcomes
    (B : Type) (fetch : jsstring -> FetchOutcome B) (url : jsstring) :
  (forall body,
      fetcher fetch url = Normal body
      <-> exists response,
            fetch url = Resolved response
            /\ ok response = true /\ json response = JsonOk body)
  /\ (forall body,
        fetcher fetch url = Abrupt (ThrownBody body)
        <-> exists response,
              fetch url = Resolved response
              /\ ok response = false /\ json response = JsonOk body)
  /\ (forall e,
        fetcher fetch url = Abrupt (ThrownError e)
        <-> fetch url = Rejected e
            \/ exists response,
                 fetch url = Resolved response /\ json response = JsonFail e).
Proof.
  unfold fetcher.
  destruct (fetch url) as [response | e0] eqn:F.
  - destruct (json response) as [b | e1] eqn:J; [destruct (ok response) eqn:O |];
      simpl; repeat split;
      try (intros H; injection H as <-; eauto; fail);
      try (intros H; discriminate H);
      try (intros (r & Er & Ho & Hj); injection Er as <-; congruence);
      try (intros [H | (r & Er & Hj)]; [discriminate H | injection Er as <-; congruence]).
  - repeat split;
      try (intros H; discriminate H);
      try (intros (r & Er & _); discriminate Er).
    + intros H. injection H as <-. auto.
    + intros [H | (r & Er & _)]; [now injection H as <- | discriminate Er].
Qed.

Lemma X9_witness :
  fetcher (fun _ => Resolved (customers_response [acme; jane])) customers_url
    = Normal (CustomersBody [acme; jane])
  /\ exists response : Response Body,
       ok response = false /\ json response = JsonOk (ApiErrorBody server_error).
Proof.
  split.
  - apply (proj1 (X9_fetcher_outcomes Body
                    (fun _ => Resolved (customers_response [acme; jane]))
                    customers_url)).
    exists (customers_response [acme; jane]). repeat split.
  - destruct (proj1 (proj1 (proj2 (X9_fetcher_outcomes Body
                                     (fun _ => Resolved server_error_response)
                                     customers_url))
                           (ApiErrorBody server_error)) eq_refl)
      as (response & _ & O & J).
    exists response. split; [exact O | exact J].
Defined.

(** X10.  The name cell of a row is never empty: it is the business
    name when that is a non-empty string, and otherwise a text that
    contains the space between the first and the last name. *)
Theorem X10_name_cell_not_empty (c : Customer.t) :
  nameCell c <> js ""
  /\ (Customer.businessName c = Some (nameCell c)
      \/ nameCell c = Customer.firstName c ++ js " " ++ Customer.lastName c).
Proof.
  unfold nameCell. destruct (Customer.businessName c) as [[| x b] |]; simpl.
  - split; [| now right]. now destruct (Customer.firstName c).
  - split; [discriminate | now left].
  - split; [| now right]. now destruct (Customer.firstName c).
Qed.

(** X11.  What the pattern of [validateEmail] asks of every string it
    accepts: at least five code units and no white space anywhere, so
    that an address with a space before or after it is rejected, not
    trimmed.  On the other hand an accepted string stays accepted when a
    character that is neither white space nor [@] is put before it or
    after it. *)
Theorem X11_validateEmail_necessary (s : jsstring) :
  validateEmail s = true ->
  5 <= List.length s
  /\ Forall (fun c => isSpace c = false) s
  /\ (forall c, plain c ->
        validateEmail (c :: s) = true /\ validateEmail (s ++ [c]) = true).
Proof.
  intros H. apply validateEmail_shape, email_shape_parts in H
    as (local & domain & tld & -> & [Nl Hl] & [Nd Hd] & [Nt Ht]).
  split; [| split].
  - rewrite length_app. simpl. rewrite length_app. simpl.
    destruct local; [now destruct Nl |].
    destruct domain; [now destruct Nd |].
    destruct tld; [now destruct Nt |]. simpl. lia.
  - assert (forall l, Forall plain l -> Forall (fun c => isSpace c = false) l) as P.
    { intros l Hp. eapply Forall_impl; [| exact Hp]. now intros c [Hc _]. }
    apply Forall_app. split; [now apply P |].
    constructor; [reflexivity |].
    apply Forall_app. split; [now apply P |].
    constructor; [reflexivity | now apply P].
  - intros c Hc. split; apply validateEmail_shape, email_shape_parts.
    + exists (c :: local), domain, tld. repeat split; auto; discriminate.
    + exists local, domain, (tld ++ [c]). repeat split; auto.
      * rewrite <- app_assoc. simpl. now rewrite <- app_assoc.
      * now destruct tld.
      * apply Forall_app. split; [exact Ht | now constructor].
Qed.

Lemma X11_witness :
  validateEmail (js "a@b.c") = true
  /\ List.length (js "a@b.c") = 5
  /\ validateEmail (js "a@b.c" ++ js "o") = true.
Proof.
  assert (validateEmail (js "a@b.c") = true) as H by reflexivity.
  assert (plain (char16_of_ascii "o")) as P by (split; [reflexivity | discriminate]).
  split; [exact H |]. split; [reflexivity |].
  apply (proj2 (proj2 (X11_validateEmail_necessary (js "a@b.c") H))
               (char16_of_ascii "o") P).
Defined.

(** X12.  The Create button and the field errors agree in one
    direction only.  In every state, a name field that is flagged, or an
    e-mail field that is flagged while [emailError] is empty, means that
    Create is disabled; and on every page the user can reach, an enabled
    Create button means that no field is flagged and no helper text is
    shown. *)
Theorem X12_enabled_means_no_complaint (p : Page.State) :
  Page.reachable p ->
  (create_disabled (renderDialog (Page.home p)) = false ->
   no_field_complains (renderDialog (Page.home p)))
  /\ (forall s,
        error (firstName_field (renderDialog s)) = true
        \/ error (lastName_field (renderDialog s)) = true
        \/ (error (email_field (renderDialog s)) = true /\ Home.emailError s = js "") ->
        create_disabled (renderDialog s) = true).
Proof.
  intros R. split.
  - intros D. simpl in D. destruct (createDisabled_false _ D) as (Hf & Hl & He & _).
    apply falsy_false in Hf, Hl, He.
    unfold no_field_complains. simpl.
    rewrite (reachable_emailError p R), Hf, Hl, He. repeat split.
  - intros s. simpl. unfold Home.createDisabled.
    intros [H | [H | [H E]]].
    + now rewrite H.
    + rewrite H. now rewrite orb_true_r.
    + rewrite E in H. simpl in H. rewrite H. now rewrite orb_true_r.
Qed.

Lemma X12_witness :
  exists p,
    Page.steps Page.initial
      [ Page.GetSettled (Resolved (customers_response [acme]));
        Page.ClickAddCustomer ] = Some p
    /\ error (firstName_field (renderDialog (Page.home p))) = true
    /\ create_disabled (renderDialog (Page.home p)) = true.
Proof.
  eexists. split; [reflexivity |].
  match goal with
  | |- error (firstName_field (renderDialog (Page.home ?q))) = true /\ _ =>
      pose proof (@steps_reachable
                    [ Page.GetSettled (Resolved (customers_response [acme]));
                      Page.ClickAddCustomer ]
                    Page.initial q Page.reachable_initial eq_refl) as R;
      pose proof (proj2 (X12_enabled_means_no_complaint q R)) as C
  end.
  split; [reflexivity |].
  apply C. left. reflexivity.
Defined.

(** X13.  The header and the body of the table agree: the table has
    one row for every customer of the array, in the order of the array,
    each with the customer's e-mail as its key and in its e-mail cell,
    and the numeral in the header is the number of rows.  The table is
    rendered for every array the hook holds, also next to an error line
    or a loading line. *)
Theorem X13_table_rows (data : Customers) :
  List.length (rows (renderTable data)) = List.length data
  /\ List.map email_cell (rows (renderTable data)) = List.map Customer.email data
  /\ List.map key (rows (renderTable data)) = List.map Customer.email data
  /\ (exists digits word,
        count_label (renderTable data) = digits ++ js " " ++ word
        /\ decimal_value digits = Some (List.length (rows (renderTable data))))
  /\ (forall w s,
        SWR.data w = Some (CustomersBody data) ->
        exists v, render w s = Some v /\ table v = Some (renderTable data)).
Proof.
  split; [apply length_map |].
  split; [simpl; rewrite map_map; reflexivity |].
  split; [simpl; rewrite map_map; reflexivity |].
  split.
  - eexists. eexists. split; [reflexivity |].
    simpl. rewrite length_map. apply decimal_value_string_of_length.
  - intros w s D. unfold render. rewrite D. eexists. split; reflexivity.
Qed.

Lemma X13_witness :
  SWR.data {| SWR.data := Some (CustomersBody [acme; jane]);
              SWR.error := Some (ThrownBody (ApiErrorBody server_error));
              SWR.inflight := 1 |}
  = Some (CustomersBody [acme; jane])
  /\ exists v,
       render {| SWR.data := Some (CustomersBody [acme; jane]);
                 SWR.error := Some (ThrownBody (ApiErrorBody server_error));
                 SWR.inflight := 1 |} Home.initial = Some v
       /\ table v = Some (renderTable [acme; jane])
       /\ error_line v = Some (js "Error: Server error")
       /\ loading_line v = Some (js "Loading...").
Proof.
  split; [reflexivity |].
  destruct (proj2 (proj2 (proj2 (proj2 (X13_table_rows [acme; jane]))))
              {| SWR.data := Some (CustomersBody [acme; jane]);
                 SWR.error := Some (ThrownBody (ApiErrorBody server_error));
                 SWR.inflight := 1 |} Home.initial eq_refl)
    as (v & Rv & Tv).
  exists v. split; [exact Rv |]. split; [exact Tv |].
  apply Some_eq in Rv. subst v. split; reflexivity.
Defined.
